(** * readr: the PDF reading page and its chat panel

    A shallow embedding of [frontend/src/app/page.tsx] (the [Home]
    component: its state, its event handlers and the two HTTP exchanges
    with the backend), together with a model of the backend chunker, which
    the specification describes in words.

    - [Js]      the JavaScript values the handlers manipulate: strings as
                sequences of UTF-16 code units, the values [JSON.parse]
                produces, truthiness, string conversion, thrown values.
    - [Page]    the component state and the handlers.  An [async] handler
                is split at its [await fetch(...)]: the part that runs
                when the event fires, and the part that runs once the
                request has settled.
    - [App]     the page together with its requests in flight, driven by a
                sequence of events.
    - [Chunker] the sliding-window chunker.
    - [View]    what the page renders, and which events it offers.
    - [FetchTest] the fetch test component.
    - [Scenarios], [MoreScenarios] concrete files, responses and states.
    - [PageProps], [ChunkerProps], [PageMore] what is proved of the page,
                of the chunker, and of the controls and the test
                component. *)

From Stdlib Require Import ZArith NArith List String Ascii Bool Lia DecimalString.
From Equations Require Import Equations.
Import ListNotations.

(* ===================================================================== *)
(** ** JavaScript values *)
(* ===================================================================== *)

Module Js.

(** A JavaScript string is a sequence of 16-bit code units. *)
Definition code_unit := N.
Definition jsstring := list code_unit.

(** A string literal of the source (all of them are ASCII). *)
Definition lit (s : string) : jsstring :=
  map N_of_ascii (list_ascii_of_string s).

(** [a === b] on strings. *)
Fixpoint jseq (a b : jsstring) : bool :=
  match a, b with
  | [], [] => true
  | x :: a', y :: b' => N.eqb x y && jseq a' b'
  | _, _ => false
  end.

(** ECMAScript WhiteSpace and LineTerminator code points, the ones
    [String.prototype.trim] strips: TAB, VT, FF, SP, NBSP, ZWNBSP, the
    Unicode space separators (category Zs), and LF, CR, LS, PS. *)
Definition is_white_space (c : code_unit) : bool :=
  (N.eqb c 9 || N.eqb c 10 || N.eqb c 11 || N.eqb c 12 || N.eqb c 13
   || N.eqb c 32 || N.eqb c 160 || N.eqb c 5760
   || (N.leb 8192 c && N.leb c 8202)
   || N.eqb c 8232 || N.eqb c 8233 || N.eqb c 8239 || N.eqb c 8287
   || N.eqb c 12288 || N.eqb c 65279)%bool.

Fixpoint trimStart (s : jsstring) : jsstring :=
  match s with
  | c :: s' => if is_white_space c then trimStart s' else s
  | [] => []
  end.

Definition trimEnd (s : jsstring) : jsstring := rev (trimStart (rev s)).

(** [s.trim()] *)
Definition trim (s : jsstring) : jsstring := trimEnd (trimStart s).

(** [hay.startsWith(needle)] and [hay.includes(needle)]. *)
Fixpoint startsWith (hay needle : jsstring) : bool :=
  match needle, hay with
  | [], _ => true
  | x :: needle', y :: hay' => N.eqb x y && startsWith hay' needle'
  | _ :: _, [] => false
  end.

Fixpoint includes (hay needle : jsstring) : bool :=
  startsWith hay needle ||
  match hay with
  | [] => false
  | _ :: hay' => includes hay' needle
  end.

(** A number of a response body.  The page never computes with one: all
    it observes is whether the number is zero (then it is falsy) and the
    text ToString gives for it. *)
Record number : Type := {
  nonzero : bool;
  printed : jsstring
}.

(** Number to string, for an integer below 10^21 in absolute value (page
    numbers, an HTTP status); from there on the code prints an exponent. *)
Definition number_to_string (z : Z) : jsstring :=
  lit (NilZero.string_of_int (Z.to_int z)).

(** Such an integer, as a number of a response body. *)
Definition int (z : Z) : number :=
  {| nonzero := negb (Z.eqb z 0); printed := number_to_string z |}.

(** The values [JSON.parse] (hence [response.json()]) can produce. *)
#[local] Unset Elimination Schemes.
Inductive json : Type :=
| JNull
| JBool (b : bool)
| JNum (n : number)
| JStr (s : jsstring)
| JArr (items : list json)
| JObj (members : list (jsstring * json)).
#[local] Set Elimination Schemes.

(** A value held by the page: [undefined], or one of the above. *)
Inductive value : Type :=
| undefined
| of_json (j : json).

Definition null : value := of_json JNull.
Definition str (s : jsstring) : value := of_json (JStr s).

(** ToBoolean: [undefined], [null], [false], [0] and the empty string are
    falsy, every array and object is truthy. *)
Definition truthy (v : value) : bool :=
  match v with
  | undefined => false
  | of_json JNull => false
  | of_json (JBool b) => b
  | of_json (JNum n) => nonzero n
  | of_json (JStr s) => match s with [] => false | _ => true end
  | of_json (JArr _) => true
  | of_json (JObj _) => true
  end.

(** [a || b] *)
Definition or_else (a b : value) : value := if truthy a then a else b.

(** What a [throw] or a rejected promise carries: an [Error] instance with
    its [message], or some other value. *)
Inductive thrown : Type :=
| Error (message : jsstring)
| NotAnError.

(** [err instanceof Error ? err.message : fallback] *)
Definition message_of (fallback : jsstring) (err : thrown) : jsstring :=
  match err with
  | Error message => message
  | NotAnError => fallback
  end.

(** Evaluation that may throw, with the usual sequencing. *)
Inductive completion (A : Type) : Type :=
| Normal (a : A)
| Throw (e : thrown).
Arguments Normal {A} a.
Arguments Throw {A} e.

Definition bind {A B} (c : completion A) (k : A -> completion B) : completion B :=
  match c with
  | Normal a => k a
  | Throw e => Throw e
  end.

(** An own property of the object [JSON.parse] built; of duplicate keys in
    the text the last one wins. *)
Fixpoint own_property (members : list (jsstring * json)) (k : jsstring) : value :=
  match members with
  | [] => undefined
  | (k', v) :: rest =>
      match own_property rest k with
      | undefined => if jseq k' k then of_json v else undefined
      | found => found
      end
  end.

(** The message of the TypeError for an object that has no primitive
    value, in V8's wording.  Nothing below depends on the wording. *)
Definition to_primitive_message : jsstring :=
  lit "Cannot convert object to primitive value".

(** ToString on a parsed value, as a template literal, a string
    concatenation and [new Error(...)] apply it.  An array joins its
    elements with commas, [null] elements being empty.  A plain object is
    "[object Object]", unless it has an own [toString] key: no JSON value
    is callable, the inherited [valueOf] returns the object itself, and
    the conversion throws a TypeError. *)
Fixpoint json_to_string (j : json) : completion jsstring :=
  match j with
  | JNull => Normal (lit "null")
  | JBool true => Normal (lit "true")
  | JBool false => Normal (lit "false")
  | JNum n => Normal (printed n)
  | JStr s => Normal s
  | JArr items =>
      (fix join (l : list json) : completion jsstring :=
         match l with
         | [] => Normal []
         | x :: rest =>
             bind (match x with JNull => Normal [] | _ => json_to_string x end)
               (fun first =>
                  match rest with
                  | [] => Normal first
                  | _ :: _ =>
                      bind (join rest)
                        (fun others => Normal (first ++ lit "," ++ others))
                  end)
         end) items
  | JObj members =>
      match own_property members (lit "toString") with
      | undefined => Normal (lit "[object Object]")
      | of_json _ => Throw (Error to_primitive_message)
      end
  end.

Definition to_string (v : value) : completion jsstring :=
  match v with
  | undefined => Normal (lit "undefined")
  | of_json j => json_to_string j
  end.

(** [throw new Error(v)] for a [v] that is not [undefined]: the message is
    ToString of [v], and if that conversion throws, its TypeError is what
    propagates. *)
Definition throw_new_Error {A} (v : value) : completion A :=
  match to_string v with
  | Normal message => Throw (Error message)
  | Throw e => Throw e
  end.

(** The message of the TypeError for a property read on [null], in V8's
    wording.  Nothing below depends on the wording. *)
Definition null_read_message (k : jsstring) : jsstring :=
  lit "Cannot read properties of null (reading '" ++ k ++ lit "')".

(** [j.k] for a property name [k] that no built-in prototype defines
    ([description], [pdf_id] and [answer] are such): reading from [null]
    throws a TypeError, an object gives its own property, anything else
    [undefined]. *)
Definition get (j : json) (k : jsstring) : completion value :=
  match j with
  | JNull => Throw (Error (null_read_message k))
  | JObj members => Normal (own_property members k)
  | _ => Normal undefined
  end.

(** *** HTTP exchanges, as a handler observes them *)

(** The outcome of [response.json()]. *)
Inductive body : Type :=
| Unparseable (e : thrown)
| Parsed (j : json).

Record response : Type := {
  ok : bool;
  status : Z;
  json_body : body
}.

(** The outcome of [fetch(...)]: rejected (no response at all), or
    resolved with a response, whatever its status. *)
Inductive fetched : Type :=
| Rejected (e : thrown)
| Resolved (r : response).

(** [await response.json()] *)
Definition await_json (r : response) : completion json :=
  match json_body r with
  | Unparseable e => Throw e
  | Parsed j => Normal j
  end.

End Js.

(* ===================================================================== *)
(** ** The page: state and handlers *)
(* ===================================================================== *)

Module Page.
Import Js.

Declare Scope completion_scope.
Delimit Scope completion_scope with completion.
Notation "x <- c ;; k" := (bind c (fun x => k))
  (at level 61, c at next level, right associativity) : completion_scope.
Local Open Scope completion_scope.

(** What the handlers read of a [File]: its name and its declared type. *)
Record File : Type := {
  name : jsstring;
  type : jsstring
}.

Inductive Sender : Type := user | ai.

(** [interface ChatMessage].  The text of an answer is whatever the
    response body held under [answer]: a [value]. *)
Record ChatMessage : Type := {
  sender : Sender;
  text : value
}.

(** The nine [useState] cells of [Home]. *)
Record State : Type := {
  selectedFile : option File;
  pdfId : value;
  uploading : bool;
  error : option jsstring;
  numPages : option Z;
  currentPage : Z;
  chatMessages : list ChatMessage;
  chatInput : jsstring;
  isSending : bool
}.

(** The state of the first render. *)
Definition initial : State := {|
  selectedFile := None;
  pdfId := null;
  uploading := false;
  error := None;
  numPages := None;
  currentPage := 1;
  chatMessages := [];
  chatInput := [];
  isSending := false
|}.

Definition setSelectedFile (x : option File) (s : State) : State :=
  {| selectedFile := x; pdfId := pdfId s; uploading := uploading s;
     error := error s; numPages := numPages s; currentPage := currentPage s;
     chatMessages := chatMessages s; chatInput := chatInput s;
     isSending := isSending s |}.

Definition setPdfId (x : value) (s : State) : State :=
  {| selectedFile := selectedFile s; pdfId := x; uploading := uploading s;
     error := error s; numPages := numPages s; currentPage := currentPage s;
     chatMessages := chatMessages s; chatInput := chatInput s;
     isSending := isSending s |}.

Definition setUploading (x : bool) (s : State) : State :=
  {| selectedFile := selectedFile s; pdfId := pdfId s; uploading := x;
     error := error s; numPages := numPages s; currentPage := currentPage s;
     chatMessages := chatMessages s; chatInput := chatInput s;
     isSending := isSending s |}.

Definition setError (x : option jsstring) (s : State) : State :=
  {| selectedFile := selectedFile s; pdfId := pdfId s; uploading := uploading s;
     error := x; numPages := numPages s; currentPage := currentPage s;
     chatMessages := chatMessages s; chatInput := chatInput s;
     isSending := isSending s |}.

Definition setNumPages (x : option Z) (s : State) : State :=
  {| selectedFile := selectedFile s; pdfId := pdfId s; uploading := uploading s;
     error := error s; numPages := x; currentPage := currentPage s;
     chatMessages := chatMessages s; chatInput := chatInput s;
     isSending := isSending s |}.

(** [setCurrentPage] and [setChatMessages] are also called with an updater
    function of the latest value, hence the function argument. *)
Definition setCurrentPage (f : Z -> Z) (s : State) : State :=
  {| selectedFile := selectedFile s; pdfId := pdfId s; uploading := uploading s;
     error := error s; numPages := numPages s; currentPage := f (currentPage s);
     chatMessages := chatMessages s; chatInput := chatInput s;
     isSending := isSending s |}.

Definition setChatMessages (f : list ChatMessage -> list ChatMessage) (s : State) : State :=
  {| selectedFile := selectedFile s; pdfId := pdfId s; uploading := uploading s;
     error := error s; numPages := numPages s; currentPage := currentPage s;
     chatMessages := f (chatMessages s); chatInput := chatInput s;
     isSending := isSending s |}.

Definition setChatInput (x : jsstring) (s : State) : State :=
  {| selectedFile := selectedFile s; pdfId := pdfId s; uploading := uploading s;
     error := error s; numPages := numPages s; currentPage := currentPage s;
     chatMessages := chatMessages s; chatInput := x;
     isSending := isSending s |}.

Definition setIsSending (x : bool) (s : State) : State :=
  {| selectedFile := selectedFile s; pdfId := pdfId s; uploading := uploading s;
     error := error s; numPages := numPages s; currentPage := currentPage s;
     chatMessages := chatMessages s; chatInput := chatInput s;
     isSending := x |}.

(** What a handler does besides updating the state. *)
Inductive effect : Type :=
| PreventDefault
| ClickFileInput
| Alert (message : jsstring)
| ConsoleError (label : jsstring) (e : thrown)
| FetchUpload (file : File)
    (* POST http://localhost:8000/upload, form field "file" *)
| FetchChat (pdf_id : value) (query : jsstring).
    (* POST http://localhost:8000/chat, body {pdf_id, query} as JSON *)

Definition is_upload_request (e : effect) : bool :=
  match e with FetchUpload _ => true | _ => false end.

Definition is_chat_request (e : effect) : bool :=
  match e with FetchChat _ _ => true | _ => false end.

(** *** Upload *)

(** [handleUpload], up to its [await fetch(...)]. *)
Definition handleUpload (fileToUpload : option File) (s : State) : State * list effect :=
  match fileToUpload with
  | None => (setError (Some (lit "No file selected.")) s, [])
  | Some file =>
      let s := setUploading true s in
      let s := setError None s in
      let s := setPdfId null s in
      (s, [FetchUpload file])
  end.

(** The [try] block of [handleUpload] from the settled [fetch] on, down to
    the read of [result.pdf_id]: it throws, or reaches the setters with
    that value. *)
Definition upload_try (f : fetched) : completion value :=
  match f with
  | Rejected e => Throw e
  | Resolved response =>
      if negb (ok response) then
        errorData <-
          match json_body response with
          | Parsed j => Normal j
          | Unparseable _ =>
              Normal (JObj [(lit "description",
                             JStr (lit "Upload failed with status: "
                                   ++ number_to_string (status response)))])
          end ;;
        description <- get errorData (lit "description") ;;
        throw_new_Error (or_else description (str (lit "Failed to upload PDF.")))
      else
        result <- await_json response ;;
        get result (lit "pdf_id")
  end.

(** The [catch] block of [handleUpload]. *)
Definition handleUpload_catch (err : thrown) (s : State) : State * list effect :=
  let errorMessage :=
    message_of (lit "An unknown error occurred during upload.") err in
  let s := setError (Some errorMessage) s in
  (s, [ConsoleError (lit "Upload error:") err;
       Alert (lit "Upload failed: " ++ errorMessage)]).

(** [handleUpload] once the [fetch] has settled.  The template literal of
    the success alert comes after the setters, still inside the [try]: if
    converting [result.pdf_id] throws, the [catch] block runs on top of
    them. *)
Definition handleUpload_settled (f : fetched) (s : State) : State * list effect :=
  let '(s, effects) :=
    match upload_try f with
    | Normal pdf_id =>
        let s := setPdfId pdf_id s in
        let s := setSelectedFile None s in
        let s := setCurrentPage (fun _ => 1%Z) s in
        let s := setNumPages None s in
        let s := setChatMessages (fun _ => []) s in
        let s := setError None s in
        match to_string pdf_id with
        | Normal shown =>
            (s, [Alert (lit "PDF '" ++ shown ++ lit "' uploaded successfully!")])
        | Throw err => handleUpload_catch err s
        end
    | Throw err => handleUpload_catch err s
    end in
  (setUploading false s, effects).

(** [handleFileChange]; the argument is [event.target.files?.[0]]. *)
Definition handleFileChange (file : option File) (s : State) : State * list effect :=
  match file with
  | Some f =>
      if jseq (type f) (lit "application/pdf") then
        let s := setSelectedFile (Some f) s in
        let s := setError None s in
        handleUpload (Some f) s
      else
        let s := setSelectedFile None s in
        let s := setError (Some (lit "Please select a valid PDF file.")) s in
        (s, [Alert (lit "Please select a valid PDF file.")])
  | None =>
      let s := setSelectedFile None s in
      let s := setError (Some (lit "Please select a valid PDF file.")) s in
      (s, [Alert (lit "Please select a valid PDF file.")])
  end.

Definition handleUploadButtonClick (s : State) : State * list effect :=
  (s, [ClickFileInput]).

(** *** The viewer *)

Definition onDocumentLoadSuccess (nextNumPages : Z) (s : State) : State :=
  setNumPages (Some nextNumPages) s.

(** Declared in the component, but not the handler the [Document] gets. *)
Definition onDocumentLoadError (message : jsstring) (s : State) : State * list effect :=
  let s := setError (Some (lit "Failed to load PDF: " ++ message)) s in
  let s := setPdfId null s in
  let s := setNumPages None s in
  (s, [ConsoleError (lit "Failed to load PDF:") (Error message)]).

(** The [onLoadError] the [Document] element is given. *)
Definition onLoadError (message : jsstring) (s : State) : State * list effect :=
  (setError (Some (lit "Failed to load PDF: " ++ message)) s,
   [ConsoleError (lit "PDF Load Error:") (Error message)]).

(** Page numbers are integers, held in [Z].  The code holds them in
    doubles, whose [+ 1] and [- 1] are exact, and so agree with [Z], on
    the integers up to 2^53 in absolute value; beyond, a double may stay
    where it is.  What is proved of the arithmetic of the two functions
    below is stated for such integers. *)
Definition safe_integer (z : Z) : Prop := (- 2 ^ 53 <= z <= 2 ^ 53)%Z.

Definition goToPrevPage (s : State) : State :=
  setCurrentPage (fun prev => if (1 <? prev)%Z then (prev - 1)%Z else prev) s.

(** [numPages && prev < numPages]: a count of [null] or [0] is falsy. *)
Definition goToNextPage (s : State) : State :=
  let numPages := numPages s in
  setCurrentPage
    (fun prev =>
       match numPages with
       | Some n => if (negb (n =? 0) && (prev <? n))%Z then (prev + 1)%Z else prev
       | None => prev
       end) s.

(** *** Chat *)

(** [handleSendMessage], up to its [await fetch(...)]. *)
Definition handleSendMessage (s : State) : State * list effect :=
  if negb (truthy (str (trim (chatInput s))))
     || negb (truthy (pdfId s))
     || isSending s
  then (s, [PreventDefault])
  else
    let question := chatInput s in
    let userMessage := {| sender := user; text := str question |} in
    let pdf_id := pdfId s in
    let s := setChatMessages (fun prev => prev ++ [userMessage]) s in
    let s := setChatInput [] s in
    let s := setIsSending true s in
    let s := setError None s in
    (s, [PreventDefault; FetchChat pdf_id question]).

(** The [try] block of [handleSendMessage] from the settled [fetch] on,
    down to the read of [result.answer]. *)
Definition chat_try (f : fetched) : completion value :=
  match f with
  | Rejected e => Throw e
  | Resolved response =>
      if negb (ok response) then
        errorData <- await_json response ;;
        description <- get errorData (lit "description") ;;
        throw_new_Error
          (or_else description
             (str (lit "HTTP error! status: "
                   ++ number_to_string (status response))))
      else
        result <- await_json response ;;
        get result (lit "answer")
  end.

(** [handleSendMessage] once the [fetch] has settled. *)
Definition handleSendMessage_settled (f : fetched) (s : State) : State * list effect :=
  let '(s, effects) :=
    match chat_try f with
    | Normal answer =>
        let aiMessage := {| sender := ai; text := answer |} in
        (setChatMessages (fun prev => prev ++ [aiMessage]) s, [])
    | Throw err =>
        let errorMessage := message_of (lit "An unknown error occurred.") err in
        let errorResponseMessage :=
          {| sender := ai;
             text := str (lit "Sorry, I encountered an error: " ++ errorMessage) |} in
        let s := setChatMessages (fun prev => prev ++ [errorResponseMessage]) s in
        let s := setError (Some (lit "Chat failed: " ++ errorMessage)) s in
        (s, [ConsoleError (lit "Chat Error:") err])
    end in
  (setIsSending false s, effects).

(** The [onChange] of the question box. *)
Definition onChatInputChange (v : jsstring) (s : State) : State :=
  setChatInput v s.

End Page.

(* ===================================================================== *)
(** ** The page and its requests in flight *)
(* ===================================================================== *)

Module App.
Import Js Page.

(** What can happen to the page: the user's actions, the callbacks of the
    PDF viewer, and a pending [fetch] settling. *)
Inductive event : Type :=
| UploadButtonClick
| FileChange (file : option File)
| UploadSettled (f : fetched)
| DocumentLoadSuccess (nextNumPages : Z)
| DocumentLoadError (message : jsstring)
| PrevPage
| NextPage
| ChatInputChange (v : jsstring)
| Submit
| ChatSettled (f : fetched).

(** The handler an event runs. *)
Definition handle (e : event) (s : State) : State * list effect :=
  match e with
  | UploadButtonClick => handleUploadButtonClick s
  | FileChange file => handleFileChange file s
  | UploadSettled f => handleUpload_settled f s
  | DocumentLoadSuccess n => (onDocumentLoadSuccess n s, [])
  | DocumentLoadError message => onLoadError message s
  | PrevPage => (goToPrevPage s, [])
  | NextPage => (goToNextPage s, [])
  | ChatInputChange v => (onChatInputChange v s, [])
  | Submit => handleSendMessage s
  | ChatSettled f => handleSendMessage_settled f s
  end.

(** The page with the number of its requests that have not settled yet. *)
Record world : Type := {
  page : State;
  chats_in_flight : nat;
  uploads_in_flight : nat
}.

Definition start : world :=
  {| page := initial; chats_in_flight := 0; uploads_in_flight := 0 |}.

Definition requests (which : effect -> bool) (effects : list effect) : nat :=
  List.length (filter which effects).

(** A request can only settle if it is in flight; every other event can
    happen at any time. *)
Definition step (w : world) (e : event) : option world :=
  let '(s, effects) := handle e (page w) in
  let chats := chats_in_flight w + requests is_chat_request effects in
  let uploads := uploads_in_flight w + requests is_upload_request effects in
  match e with
  | ChatSettled _ =>
      match chats with
      | 0 => None
      | S n => Some {| page := s; chats_in_flight := n; uploads_in_flight := uploads |}
      end
  | UploadSettled _ =>
      match uploads with
      | 0 => None
      | S n => Some {| page := s; chats_in_flight := chats; uploads_in_flight := n |}
      end
  | _ => Some {| page := s; chats_in_flight := chats; uploads_in_flight := uploads |}
  end.

Fixpoint run (w : world) (events : list event) : option world :=
  match events with
  | [] => Some w
  | e :: rest =>
      match step w e with
      | Some w' => run w' rest
      | None => None
      end
  end.

Definition reachable (w : world) : Prop :=
  exists events, run start events = Some w.

(** The request failed: [fetch] rejected, or the response is not OK. *)
Definition request_failed (f : fetched) : Prop :=
  match f with
  | Rejected _ => True
  | Resolved r => ok r = false
  end.

(** Presses of the two page buttons. *)
Inductive turn : Type := Prev | Next.

Definition press (t : turn) (s : State) : State :=
  match t with
  | Prev => goToPrevPage s
  | Next => goToNextPage s
  end.

Definition browse (turns : list turn) (s : State) : State :=
  fold_left (fun s t => press t s) turns s.

(** The sending flag counts the chat requests in flight. *)
Definition flag_counts (w : world) : Prop :=
  chats_in_flight w = if isSending (page w) then 1 else 0.

End App.

(* ===================================================================== *)
(** ** The chunker *)
(* ===================================================================== *)

Module Chunker.

Section Chunks.

Context {A : Type}.

(** A chunk candidate: its place in the sequence, the span [start, stop)
    of the text it covers, and that text. *)
Record Chunk : Type := {
  index : nat;
  start : nat;
  stop : nat;
  content : list A
}.

Inductive ChunkError : Type := InvalidConfiguration.

(** [text[pos : pos + size]] *)
Definition window (text : list A) (pos size : nat) : list A :=
  firstn size (skipn pos text).

(** Modelled from the spec: the sliding loop of the backend Chunker
    (section 4.2), whose code is not among the sources.  A window of
    [chunk_size] characters starts at [pos]; if it reaches the end of the
    text it is the final chunk, cut at the end, and otherwise the next
    window starts [chunk_size - overlap] further. *)
Equations? slide (text : list A) (chunk_size overlap : nat) (i pos : nat) :
    list Chunk by wf (List.length text - pos) lt :=
  slide text chunk_size overlap i pos
    with le_lt_dec (List.length text) (pos + chunk_size) := {
    | left _ =>
        [{| index := i; start := pos; stop := List.length text;
            content := window text pos chunk_size |}]
    | right _ with lt_dec overlap chunk_size := {
        | left _ =>
            {| index := i; start := pos; stop := pos + chunk_size;
               content := window text pos chunk_size |}
            :: slide text chunk_size overlap (S i) (pos + (chunk_size - overlap))
        | right _ => [] } }.
Proof. lia. Qed.

(** Modelled from the spec: [chunk] of section 4.2 on the concatenated
    page texts.  The configuration must satisfy
    [0 <= overlap < chunk_size], or the call fails with
    [InvalidConfiguration]; an empty text gives no chunk. *)
Definition chunk (text : list A) (chunk_size overlap : nat) : ChunkError + list Chunk :=
  if overlap <? chunk_size then
    match text with
    | [] => inr []
    | _ :: _ => inr (slide text chunk_size overlap 0 0)
    end
  else inl InvalidConfiguration.

(** The number of offsets two spans have in common. *)
Definition shared (c d : Chunk) : nat :=
  Nat.min (stop c) (stop d) - Nat.max (start c) (start d).

End Chunks.

Arguments Chunk A : clear implicits.

End Chunker.

(* ===================================================================== *)
(** ** Concrete files, responses and states *)
(* ===================================================================== *)

Module Scenarios.
Import Js Page App.

Definition png : File := {| name := lit "scan.png"; type := lit "image/png" |}.
Definition paper : File := {| name := lit "paper.pdf"; type := lit "application/pdf" |}.

Definition reading (question : jsstring) : State :=
  setChatInput question (setPdfId (str (lit "paper.pdf")) initial).

Definition server_error : response :=
  {| ok := false; status := 500;
     json_body := Parsed (JObj [(lit "description", JStr (lit "Generation failed"))]) |}.

Definition answered : response :=
  {| ok := true; status := 200;
     json_body := Parsed (JObj [(lit "answer", JStr (lit "It is about chunking."))]) |}.

Definition uploaded : response :=
  {| ok := true; status := 200;
     json_body := Parsed (JObj [(lit "pdf_id", JStr (lit "paper.pdf"))]) |}.

(** A refusal whose JSON body has no [description]. *)
Definition refused : response :=
  {| ok := false; status := 400;
     json_body := Parsed (JObj [(lit "error", JStr (lit "No file part"))]) |}.

Definition unreadable : response :=
  {| ok := false; status := 422;
     json_body :=
       Parsed (JObj [(lit "description", JStr (lit "The file has no text layer."))]) |}.

Definition loaded : State :=
  setChatMessages
    (fun _ => [{| sender := user; text := str (lit "why?") |};
               {| sender := ai; text := str (lit "Because.") |}])
    (setNumPages (Some 12%Z) (setPdfId (str (lit "paper.pdf")) initial)).

Definition asking : list event :=
  [FileChange (Some paper); UploadSettled (Resolved uploaded);
   ChatInputChange (lit "why?"); Submit; ChatInputChange (lit "and how?"); Submit].

(** The state [asking] leads to: the first question is pending, the second
    submission was ignored. *)
Definition pending : world :=
  Eval vm_compute in
    match run start asking with
    | Some w => w
    | None => start
    end.

Definition abcd : list ascii := list_ascii_of_string "AAAA BBBB CCCC DDDD".

End Scenarios.

(* ===================================================================== *)
(** ** What the page renders *)
(* ===================================================================== *)

Module View.
Import Js Page App.

(** The previous/next controls of the viewer's footer. *)
Record Pagination : Type := {
  prevDisabled : bool;
  pageLabel : jsstring;
  nextDisabled : bool
}.

(** A message of the transcript as drawn: on the right for the user's, on
    the left for the assistant's. *)
Record Bubble : Type := {
  onTheRight : bool;
  shown : value
}.

(** The parts of the JSX that [Home] returns which depend on the state
    (class names and fixed captions are left out).  A text built by a
    template literal around [pdfId] is a [completion]: it throws, and the
    render with it, when [pdfId] has no string conversion. *)
Record Rendered : Type := {
  viewerDescription : completion jsstring;
  documentFile : option (completion jsstring);
  pageNumber : Z;
  uploadDisabled : bool;
  uploadLabel : completion jsstring;
  pagination : option Pagination;
  chatDescription : completion jsstring;
  emptyNotice : option jsstring;
  bubbles : list Bubble;
  thinking : bool;
  inputPlaceholder : jsstring;
  inputValue : jsstring;
  inputDisabled : bool;
  sendDisabled : bool;
  sendLabel : jsstring;
  errorBanner : option jsstring
}.

(** [numPages || '?'] inside a template literal. *)
Definition pages_or_unknown (numPages : option Z) : jsstring :=
  match numPages with
  | Some n => if (n =? 0)%Z then lit "?" else number_to_string n
  | None => lit "?"
  end.

(** The [return (...)] of [Home]. *)
Definition render (s : State) : Rendered :=
  let hasPdf := truthy (pdfId s) in
  {| viewerDescription :=
       if hasPdf
       then bind (to_string (pdfId s))
              (fun id =>
                 Normal (lit "Viewing: " ++ id
                         ++ lit " (Page " ++ number_to_string (currentPage s)
                         ++ lit " of " ++ pages_or_unknown (numPages s) ++ lit ")"))
       else Normal (lit "Upload a PDF to start reading.");
     (* the [Document] element, or the "Loading PDF..." paragraph *)
     documentFile :=
       if hasPdf
       then Some (bind (to_string (pdfId s))
                    (fun id =>
                       Normal (lit "http://localhost:8000/pdf/" ++ id ++ lit "/raw")))
       else None;
     pageNumber := currentPage s;
     uploadDisabled := uploading s;
     uploadLabel :=
       if uploading s then Normal (lit "Uploading...")
       else if hasPdf
            then bind (to_string (pdfId s))
                   (fun id => Normal (lit "Uploaded: " ++ id))
            else Normal (lit "Upload PDF");
     (* [pdfId && numPages && (...)] *)
     pagination :=
       match numPages s with
       | Some n =>
           if hasPdf && negb (n =? 0)%Z then
             Some {| prevDisabled := (currentPage s <=? 1)%Z;
                     pageLabel := lit "Page " ++ number_to_string (currentPage s)
                                  ++ lit " of " ++ number_to_string n;
                     nextDisabled := (n <=? currentPage s)%Z |}
           else None
       | None => None
       end;
     chatDescription :=
       if hasPdf
       then bind (to_string (pdfId s))
              (fun id => Normal (lit "Ask questions about: " ++ id))
       else Normal (lit "Upload a PDF to enable chat.");
     emptyNotice :=
       match chatMessages s with
       | [] => Some (if hasPdf
                     then lit "Chat history is empty. Ask a question below!"
                     else lit "No PDF uploaded.")
       | _ :: _ => None
       end;
     bubbles :=
       map (fun message =>
              {| onTheRight := match sender message with user => true | ai => false end;
                 shown := text message |})
           (chatMessages s);
     thinking := isSending s;
     inputPlaceholder :=
       if hasPdf then lit "Type your question..." else lit "Upload a PDF first";
     inputValue := chatInput s;
     inputDisabled := negb hasPdf || isSending s;
     sendDisabled := negb (truthy (str (trim (chatInput s)))) || isSending s || negb hasPdf;
     sendLabel := if isSending s then lit "Sending..." else lit "Send";
     (* [error && (...)]: an empty message is falsy *)
     errorBanner :=
       match error s with
       | Some (c :: m) => Some (c :: m)
       | _ => None
       end |}.

(** Whether the rendered page lets an event happen: a disabled button or
    input, or an element that is not rendered, fires nothing.  The hidden
    file input changes only through the dialog the upload button opens; a
    settling request needs no control. *)
Definition offered (s : State) (e : event) : bool :=
  let view := render s in
  match e with
  | UploadButtonClick => negb (uploadDisabled view)
  | FileChange _ => negb (uploadDisabled view)
  | DocumentLoadSuccess _ | DocumentLoadError _ =>
      match documentFile view with Some _ => true | None => false end
  | PrevPage =>
      match pagination view with Some p => negb (prevDisabled p) | None => false end
  | NextPage =>
      match pagination view with Some p => negb (nextDisabled p) | None => false end
  | ChatInputChange _ => negb (inputDisabled view)
  | Submit => negb (sendDisabled view)
  | UploadSettled _ | ChatSettled _ => true
  end.

(** A run in which every event is one the page offers. *)
Fixpoint run_offered (w : world) (events : list event) : option world :=
  match events with
  | [] => Some w
  | e :: rest =>
      if offered (page w) e then
        match step w e with
        | Some w' => run_offered w' rest
        | None => None
        end
      else None
  end.

Definition reachable_offered (w : world) : Prop :=
  exists events, run_offered start events = Some w.

End View.

(* ===================================================================== *)
(** ** The fetch test component *)
(* ===================================================================== *)

(** [components/fetch-test.tsx]: one state cell, set once by the promise
    chain its effect starts on mount. *)
Module FetchTest.
Import Js Page.
Local Open Scope completion_scope.

(** [useState("Waiting for response...")] *)
Definition initial : value := str (lit "Waiting for response...").

(** [.then((res) => res.json()).then((data) => setMessage(data.message))]
    on the settled [fetch]: the message to set, unless a step rejects. *)
Definition chain (f : fetched) : completion value :=
  match f with
  | Rejected e => Throw e
  | Resolved res =>
      data <- await_json res ;;
      get data (lit "message")
  end.

(** The [message] cell once the chain, with its [.catch], has run. *)
Definition settled (f : fetched) : value :=
  match chain f with
  | Normal message => message
  | Throw _ => str (lit "Error fetching data")
  end.

End FetchTest.

(* ===================================================================== *)
(** ** More concrete states *)
(* ===================================================================== *)

Module MoreScenarios.
Import Js Page App Scenarios.

(** Page 5 of the twelve of "paper.pdf". *)
Definition midway : State := setCurrentPage (fun _ => 5%Z) loaded.

Definition greeting : response :=
  {| ok := false; status := 404;
     json_body := Parsed (JObj [(lit "message", JStr (lit "Not here"))]) |}.

Definition no_detail : response :=
  {| ok := false; status := 503; json_body := Parsed (JObj []) |}.

(** An OK response whose body is the JSON text [null]. *)
Definition ok_null : response :=
  {| ok := true; status := 200; json_body := Parsed JNull |}.

(** A refusal whose body is the JSON text [null]. *)
Definition refused_null : response :=
  {| ok := false; status := 500; json_body := Parsed JNull |}.

(** On page 5 of "paper.pdf", with two messages in the transcript, a new
    file has just been posted. *)
Definition reuploading : State := fst (handleUpload (Some paper) midway).

(** The question "why?" has just been posted. *)
Definition asked : State := fst (handleSendMessage (reading (lit "why?"))).

(** An OK response with an empty body. *)
Definition blank_ok : response :=
  {| ok := true; status := 200;
     json_body := Unparseable (Error (lit "Unexpected end of JSON input")) |}.

(** A session that uses only what the page offers: upload, wait, type,
    send. *)
Definition asking_offered : list event :=
  [UploadButtonClick; FileChange (Some paper); UploadSettled (Resolved uploaded);
   DocumentLoadSuccess 12; NextPage; ChatInputChange (lit "why?"); Submit].

Definition pending_offered : world :=
  Eval vm_compute in
    match View.run_offered start asking_offered with
    | Some w => w
    | None => start
    end.

(** An upload is posted and has not settled. *)
Definition uploading_paper : world :=
  Eval vm_compute in
    match run start [UploadButtonClick; FileChange (Some paper)] with
    | Some w => w
    | None => start
    end.

End MoreScenarios.

(* ===================================================================== *)
(** ** Properties of the page *)
(* ===================================================================== *)

Module PageProps.
Import Js Page App Scenarios MoreScenarios.

(** *** Strings *)

Lemma jseq_eq (a b : jsstring) : jseq a b = true <-> a = b.
Proof.
  revert b; induction a as [|x a IH]; intros [|y b]; simpl; split;
    try congruence; try reflexivity.
  - intros H. apply andb_true_iff in H as [Hx Hab].
    apply N.eqb_eq in Hx. apply IH in Hab. congruence.
  - intros H. injection H as -> ->.
    rewrite N.eqb_refl. simpl. now apply IH.
Qed.

Lemma trimStart_blank (s : jsstring) :
  trimStart s = [] <-> forallb is_white_space s = true.
Proof.
  induction s as [|c s IH]; simpl.
  - tauto.
  - destruct (is_white_space c); simpl.
    + exact IH.
    + split; discriminate.
Qed.

Lemma trimStart_suffix (s : jsstring) :
  exists blanks, s = blanks ++ trimStart s /\ forallb is_white_space blanks = true.
Proof.
  induction s as [|c s [blanks [Hs Hb]]]; simpl.
  - exists []. now split.
  - destruct (is_white_space c) eqn:Hc.
    + exists (c :: blanks). simpl. rewrite Hc, Hb, <- Hs. now split.
    + exists []. now split.
Qed.

Lemma forallb_rev {A} (f : A -> bool) (l : list A) :
  forallb f (rev l) = forallb f l.
Proof.
  induction l as [|x l IH]; simpl; [reflexivity|].
  rewrite forallb_app, IH. simpl. rewrite andb_true_r. apply andb_comm.
Qed.

(** [trim] leaves nothing exactly when the string is all white space. *)
Lemma trim_blank (s : jsstring) :
  trim s = [] <-> forallb is_white_space s = true.
Proof.
  unfold trim, trimEnd. split.
  - intros H.
    assert (Hr : trimStart (rev (trimStart s)) = []).
    { rewrite <- (rev_involutive (trimStart _)). rewrite H. reflexivity. }
    apply trimStart_blank in Hr. rewrite forallb_rev in Hr.
    destruct (trimStart_suffix s) as [blanks [Hs Hb]].
    rewrite Hs, forallb_app, Hb, Hr. reflexivity.
  - intros H. apply trimStart_blank in H. rewrite H. reflexivity.
Qed.

Example trim_question : trim (lit "  what is it about?  ") = lit "what is it about?".
Proof. reflexivity. Qed.

Example trim_line_ends : trim [9; 10; 13; 160; 8232; 12288; 65279]%N = [].
Proof. reflexivity. Qed.

Example array_to_string :
  json_to_string
    (JArr [JNum (int 1); JNull; JStr (lit "x"); JArr [JBool true; JNum (int (-2))]])
  = Normal (lit "1,,x,true,-2").
Proof. reflexivity. Qed.

Example own_toString_throws :
  json_to_string (JArr [JStr (lit "x"); JObj [(lit "toString", JNull)]])
  = Throw (Error to_primitive_message).
Proof. reflexivity. Qed.

Example last_duplicate_wins :
  get (JObj [(lit "answer", JNum (int 1)); (lit "answer", JNum (int 2))]) (lit "answer")
  = Normal (of_json (JNum (int 2))).
Proof. reflexivity. Qed.

(** *** File selection *)

(** C2. A selected file is uploaded exactly when its declared type is
    "application/pdf", and then it is that file which is posted; a file of
    any other type starts no upload, and the page reports "Please select a
    valid PDF file." both in its error banner and in an alert. *)
Theorem upload_iff_declared_pdf (f : File) (s : State) :
  ((exists file, In (FetchUpload file) (snd (handleFileChange (Some f) s)))
     <-> type f = lit "application/pdf")
  /\ (type f = lit "application/pdf" ->
        snd (handleFileChange (Some f) s) = [FetchUpload f])
  /\ (type f <> lit "application/pdf" ->
        snd (handleFileChange (Some f) s) = [Alert (lit "Please select a valid PDF file.")]
        /\ error (fst (handleFileChange (Some f) s))
           = Some (lit "Please select a valid PDF file.")).
Proof.
  unfold handleFileChange.
  destruct (jseq (type f) (lit "application/pdf")) eqn:Hty.
  - apply jseq_eq in Hty. simpl. split; [|split].
    + split; [tauto|]. intros _. exists f. now left.
    + reflexivity.
    + intros H. contradiction.
  - assert (Hne : type f <> lit "application/pdf").
    { intros H. apply jseq_eq in H. congruence. }
    simpl. split; [|split].
    + split; [|tauto]. intros [file [H | []]]. discriminate.
    + intros H. contradiction.
    + intros _. split; reflexivity.
Qed.

Lemma upload_iff_declared_pdf_witness :
  snd (handleFileChange (Some paper) initial) = [FetchUpload paper]
  /\ snd (handleFileChange (Some png) initial)
     = [Alert (lit "Please select a valid PDF file.")]
  /\ error (fst (handleFileChange (Some png) initial))
     = Some (lit "Please select a valid PDF file.").
Proof.
  split.
  - apply (upload_iff_declared_pdf paper initial). reflexivity.
  - apply (upload_iff_declared_pdf png initial). vm_compute. discriminate.
Defined.

(** *** Asking a question *)

Lemma truthy_trim (q : jsstring) :
  truthy (str (trim q)) = false <-> trim q = [].
Proof.
  simpl. destruct (trim q); split; congruence.
Qed.

(** A chat request is posted only past the guard of [handleSendMessage]. *)
Lemma chat_request_posted (s : State) (pdf_id : value) (query : jsstring) :
  In (FetchChat pdf_id query) (snd (handleSendMessage s)) ->
  trim (chatInput s) <> [] /\ truthy (pdfId s) = true /\ isSending s = false.
Proof.
  unfold handleSendMessage.
  destruct (truthy (str (trim (chatInput s)))) eqn:Hq; simpl;
    [|intros [H | []]; discriminate].
  destruct (truthy (pdfId s)) eqn:Hp; simpl;
    [|intros [H | []]; discriminate].
  destruct (isSending s); simpl.
  - intros [H | []]. discriminate.
  - intros _. split; [|split; reflexivity].
    intros H. apply truthy_trim in H. congruence.
Qed.

(** C3. A submission posts a chat request only if the question is not
    empty once trimmed and a document is selected; when the trimmed
    question is empty the submission changes nothing, the transcript
    included, and posts nothing. *)
Theorem chat_request_needs_question (s : State) :
  (forall pdf_id query,
      In (FetchChat pdf_id query) (snd (handleSendMessage s)) ->
      trim (chatInput s) <> [] /\ truthy (pdfId s) = true)
  /\ (trim (chatInput s) = [] ->
        handleSendMessage s = (s, [PreventDefault])).
Proof.
  split.
  - intros pdf_id query Hin.
    destruct (chat_request_posted s pdf_id query Hin) as [Hq [Hp _]].
    now split.
  - intros H. unfold handleSendMessage.
    apply truthy_trim in H. rewrite H. reflexivity.
Qed.

Lemma chat_request_needs_question_witness :
  (trim (lit "What is it about? ") <> [] /\ truthy (str (lit "paper.pdf")) = true)
  /\ handleSendMessage (reading (lit "   ")) = (reading (lit "   "), [PreventDefault]).
Proof.
  split.
  - apply (proj1 (chat_request_needs_question (reading (lit "What is it about? ")))
             (str (lit "paper.pdf")) (lit "What is it about? ")).
    vm_compute. right. left. reflexivity.
  - apply (proj2 (chat_request_needs_question (reading (lit "   ")))).
    reflexivity.
Defined.

(** *** A chat turn that fails *)

Lemma throw_new_Error_throws (A : Type) (v : value) :
  exists err, @throw_new_Error A v = Throw err.
Proof.
  unfold throw_new_Error. destruct (to_string v) as [m | e]; eauto.
Qed.

Lemma throw_new_Error_string (A : Type) (m : jsstring) :
  @throw_new_Error A (str m) = Throw (Error m).
Proof. reflexivity. Qed.

Lemma chat_try_failed (f : fetched) :
  request_failed f -> exists err, chat_try f = Throw err.
Proof.
  destruct f as [e | r]; simpl.
  - intros _. now exists e.
  - intros ->. simpl. unfold await_json.
    destruct (json_body r) as [e | j]; simpl; [now exists e|].
    destruct (get j (lit "description")) as [d | e]; simpl; eauto.
    apply throw_new_Error_throws.
Qed.

Lemma chat_settled_throw (f : fetched) (err : thrown) (s : State) :
  chat_try f = Throw err ->
  let errorMessage := message_of (lit "An unknown error occurred.") err in
  handleSendMessage_settled f s =
    (setIsSending false
       (setError (Some (lit "Chat failed: " ++ errorMessage))
          (setChatMessages
             (fun prev => prev ++ [{| sender := ai;
                                      text := str (lit "Sorry, I encountered an error: "
                                                   ++ errorMessage) |}]) s)),
     [ConsoleError (lit "Chat Error:") err]).
Proof.
  intros H. unfold handleSendMessage_settled. rewrite H. reflexivity.
Qed.

Lemma chat_settled_normal (f : fetched) (answer : value) (s : State) :
  chat_try f = Normal answer ->
  handleSendMessage_settled f s =
    (setIsSending false
       (setChatMessages (fun prev => prev ++ [{| sender := ai; text := answer |}]) s),
     []).
Proof.
  intros H. unfold handleSendMessage_settled. rewrite H. reflexivity.
Qed.

Lemma submit_accepted (s : State) :
  trim (chatInput s) <> [] -> truthy (pdfId s) = true -> isSending s = false ->
  handleSendMessage s =
    (setError None
       (setIsSending true
          (setChatInput []
             (setChatMessages
                (fun prev => prev ++ [{| sender := user; text := str (chatInput s) |}]) s))),
     [PreventDefault; FetchChat (pdfId s) (chatInput s)]).
Proof.
  intros Hq Hp Hs. unfold handleSendMessage. rewrite Hp, Hs.
  destruct (truthy (str (trim (chatInput s)))) eqn:Ht.
  - reflexivity.
  - apply truthy_trim in Ht. contradiction.
Qed.

(** C1. When the request of a chat turn fails, or its response is not OK,
    the page appends one message of the assistant that carries the error
    ("Sorry, I encountered an error: ..."), shows the same error in its
    banner, leaves the document identifier, the page count and the current
    page as they were, and clears the sending flag: the next question, if
    not blank and a document is selected, is posted. *)
Theorem failed_chat_turn_is_reported (f : fetched) (s : State)
    (Hfail : request_failed f) :
  let s' := fst (handleSendMessage_settled f s) in
  exists errorMessage,
    chatMessages s'
      = chatMessages s
        ++ [{| sender := ai;
               text := str (lit "Sorry, I encountered an error: " ++ errorMessage) |}]
    /\ error s' = Some (lit "Chat failed: " ++ errorMessage)
    /\ pdfId s' = pdfId s
    /\ numPages s' = numPages s
    /\ currentPage s' = currentPage s
    /\ isSending s' = false
    /\ forall question,
         trim question <> [] -> truthy (pdfId s) = true ->
         snd (handleSendMessage (setChatInput question s'))
           = [PreventDefault; FetchChat (pdfId s) question].
Proof.
  destruct (chat_try_failed f Hfail) as [err Herr].
  intros s'. subst s'. rewrite (chat_settled_throw f err s Herr). simpl.
  exists (message_of (lit "An unknown error occurred.") err).
  repeat (split; [reflexivity|]).
  intros question Hq Hp.
  rewrite submit_accepted; simpl; auto.
Qed.

Lemma failed_chat_turn_is_reported_witness :
  exists errorMessage,
    chatMessages (fst (handleSendMessage_settled (Resolved server_error)
                         (reading (lit "why?"))))
      = [{| sender := ai;
            text := str (lit "Sorry, I encountered an error: " ++ errorMessage) |}]
    /\ isSending (fst (handleSendMessage_settled (Resolved server_error)
                         (reading (lit "why?")))) = false.
Proof.
  destruct (failed_chat_turn_is_reported (Resolved server_error) (reading (lit "why?")))
    as [m [Hm [_ [_ [_ [_ [Hs _]]]]]]].
  - reflexivity.
  - exists m. split; [exact Hm | exact Hs].
Defined.

(** *** A chat turn that succeeds *)

Lemma get_not_null (j : json) (k : jsstring) :
  j <> JNull -> exists v, get j k = Normal v.
Proof.
  intros Hj. destruct j; simpl; eauto. contradiction.
Qed.

(** C4, as stated, fails: an OK response whose body is the JSON [null] has
    no [answer] to read; the read throws, and the one message the turn
    appends for the assistant is the report of that error. *)
Lemma ok_null_is_not_answered :
  ok ok_null = true
  /\ json_body ok_null = Parsed JNull
  /\ get JNull (lit "answer") = Throw (Error (null_read_message (lit "answer")))
  /\ chatMessages (fst (handleSendMessage_settled (Resolved ok_null) asked))
     = [{| sender := user; text := str (lit "why?") |};
        {| sender := ai;
           text := str (lit "Sorry, I encountered an error: "
                        ++ null_read_message (lit "answer")) |}].
Proof. repeat split. Qed.

(** C4, amended. When the response of a chat turn is OK and its body is
    JSON other than [null], the page appends exactly one message of the
    assistant, whose text is the [answer] field of that body; over the
    whole turn the transcript grows by the question and this answer. *)
Theorem answered_chat_turn (r : response) (j : json) (s : State)
    (Hok : ok r = true)
    (Hbody : json_body r = Parsed j)
    (Hjson : j <> JNull) :
  exists answer,
    get j (lit "answer") = Normal answer
    /\ chatMessages (fst (handleSendMessage_settled (Resolved r) s))
       = chatMessages s ++ [{| sender := ai; text := answer |}]
    /\ forall s0 pdf_id query,
         In (FetchChat pdf_id query) (snd (handleSendMessage s0)) ->
         chatMessages (fst (handleSendMessage_settled (Resolved r)
                              (fst (handleSendMessage s0))))
           = chatMessages s0 ++ [{| sender := user; text := str (chatInput s0) |};
                                 {| sender := ai; text := answer |}].
Proof.
  destruct (get_not_null j (lit "answer") Hjson) as [answer Hanswer].
  exists answer. split; [exact Hanswer|].
  assert (Htry : chat_try (Resolved r) = Normal answer).
  { simpl. rewrite Hok. simpl. unfold await_json. rewrite Hbody. exact Hanswer. }
  split.
  - rewrite (chat_settled_normal _ _ s Htry). reflexivity.
  - intros s0 pdf_id query Hin.
    rewrite (chat_settled_normal _ _ _ Htry). simpl.
    destruct (chat_request_posted s0 pdf_id query Hin) as [Hq [Hp Hs]].
    rewrite (submit_accepted s0 Hq Hp Hs). simpl.
    rewrite <- app_assoc. reflexivity.
Qed.

(** X3. An OK response whose body is not JSON, or is [null], is a failed turn:
    the read throws inside the [try], and the [catch] block reports it. *)
Lemma ok_without_answer (r : response) (s : State) :
  ok r = true ->
  (forall j, json_body r = Parsed j -> j = JNull) ->
  exists err,
    chat_try (Resolved r) = Throw err
    /\ chatMessages (fst (handleSendMessage_settled (Resolved r) s))
       = chatMessages s
         ++ [{| sender := ai;
                text := str (lit "Sorry, I encountered an error: "
                             ++ message_of (lit "An unknown error occurred.") err) |}].
Proof.
  intros Hok Hbody.
  assert (Htry : exists err, chat_try (Resolved r) = Throw err).
  { simpl. rewrite Hok. simpl. unfold await_json.
    destruct (json_body r) as [e | j]; simpl; [now exists e|].
    rewrite (Hbody j eq_refl). simpl. eauto. }
  destruct Htry as [err Herr]. exists err. split; [exact Herr|].
  rewrite (chat_settled_throw _ _ s Herr). reflexivity.
Qed.

Lemma answered_chat_turn_witness :
  exists answer,
    get (JObj [(lit "answer", JStr (lit "It is about chunking."))]) (lit "answer")
      = Normal answer
    /\ chatMessages (fst (handleSendMessage_settled (Resolved answered) asked))
       = chatMessages asked ++ [{| sender := ai; text := answer |}].
Proof.
  destruct (answered_chat_turn answered
              (JObj [(lit "answer", JStr (lit "It is about chunking."))]) asked)
    as [answer [Hget [Happend _]]].
  - reflexivity.
  - reflexivity.
  - discriminate.
  - exists answer. split; [exact Hget | exact Happend].
Defined.

(** *** Uploads *)

(** A successful upload: every setter of the [try] block has run; the
    error cell is empty, unless the alert's template literal threw. *)
Lemma upload_settled_normal (f : fetched) (pdf_id : value) (s : State) :
  upload_try f = Normal pdf_id ->
  exists cell,
    fst (handleUpload_settled f s) =
      setUploading false
        (setError cell
           (setChatMessages (fun _ => [])
              (setNumPages None
                 (setCurrentPage (fun _ => 1%Z)
                    (setSelectedFile None (setPdfId pdf_id s)))))).
Proof.
  intros H. unfold handleUpload_settled. rewrite H.
  destruct (to_string pdf_id) as [shown | err]; eexists; reflexivity.
Qed.

Lemma upload_settled_throw (f : fetched) (err : thrown) (s : State) :
  upload_try f = Throw err ->
  let errorMessage := message_of (lit "An unknown error occurred during upload.") err in
  handleUpload_settled f s =
    (setUploading false (setError (Some errorMessage) s),
     [ConsoleError (lit "Upload error:") err;
      Alert (lit "Upload failed: " ++ errorMessage)]).
Proof.
  intros H. unfold handleUpload_settled. rewrite H. reflexivity.
Qed.

Lemma upload_try_failed (f : fetched) :
  request_failed f -> exists err, upload_try f = Throw err.
Proof.
  destruct f as [e | r]; simpl.
  - intros _. now exists e.
  - intros ->. simpl.
    destruct (json_body r) as [e | j]; simpl.
    + eexists. reflexivity.
    + destruct (get j (lit "description")) as [d | e]; simpl; eauto.
      apply throw_new_Error_throws.
Qed.

(** C5, as stated, fails: an OK response whose body is the JSON [null] has
    no [pdf_id] to read; the read throws before any setter, so the page
    stays on page 5, keeps its transcript, and has no document selected. *)
Lemma ok_null_resets_nothing :
  ok ok_null = true
  /\ json_body ok_null = Parsed JNull
  /\ get JNull (lit "pdf_id") = Throw (Error (null_read_message (lit "pdf_id")))
  /\ pdfId (fst (handleUpload_settled (Resolved ok_null) reuploading)) = null
  /\ currentPage (fst (handleUpload_settled (Resolved ok_null) reuploading)) = 5%Z
  /\ chatMessages (fst (handleUpload_settled (Resolved ok_null) reuploading))
     = [{| sender := user; text := str (lit "why?") |};
        {| sender := ai; text := str (lit "Because.") |}].
Proof. repeat split. Qed.

(** C5, amended. When the response of an upload is OK and its body is
    JSON other than [null], the [pdf_id] field of that body becomes the
    active document identifier, the current page is 1 and the transcript
    is empty. *)
Theorem successful_upload (r : response) (j : json) (s : State)
    (Hok : ok r = true)
    (Hbody : json_body r = Parsed j)
    (Hjson : j <> JNull) :
  let s' := fst (handleUpload_settled (Resolved r) s) in
  exists pdf_id,
    get j (lit "pdf_id") = Normal pdf_id
    /\ pdfId s' = pdf_id /\ currentPage s' = 1%Z /\ chatMessages s' = [].
Proof.
  destruct (get_not_null j (lit "pdf_id") Hjson) as [pdf_id Hid].
  assert (Htry : upload_try (Resolved r) = Normal pdf_id).
  { simpl. rewrite Hok. simpl. unfold await_json. rewrite Hbody. exact Hid. }
  intros s'. subst s'. exists pdf_id. split; [exact Hid|].
  destruct (upload_settled_normal (Resolved r) pdf_id s Htry) as [cell Hs].
  rewrite Hs. repeat split.
Qed.

(** An OK response whose body is not JSON, or is [null], is a failed
    upload. *)
Lemma ok_without_pdf_id (r : response) :
  ok r = true ->
  (forall j, json_body r = Parsed j -> j = JNull) ->
  exists err, upload_try (Resolved r) = Throw err.
Proof.
  intros Hok Hbody. simpl. rewrite Hok. simpl. unfold await_json.
  destruct (json_body r) as [e | j]; simpl; [now exists e|].
  rewrite (Hbody j eq_refl). simpl. eauto.
Qed.

Lemma successful_upload_witness :
  currentPage reuploading = 5%Z
  /\ pdfId reuploading = null
  /\ exists pdf_id,
       get (JObj [(lit "pdf_id", JStr (lit "paper.pdf"))]) (lit "pdf_id") = Normal pdf_id
       /\ pdfId (fst (handleUpload_settled (Resolved uploaded) reuploading)) = pdf_id
       /\ currentPage (fst (handleUpload_settled (Resolved uploaded) reuploading)) = 1%Z
       /\ chatMessages (fst (handleUpload_settled (Resolved uploaded) reuploading)) = [].
Proof.
  split; [reflexivity|]. split; [reflexivity|].
  apply (successful_upload uploaded
           (JObj [(lit "pdf_id", JStr (lit "paper.pdf"))]) reuploading);
    [reflexivity | reflexivity | discriminate].
Defined.

Lemma startsWith_refl (a : jsstring) : startsWith a a = true.
Proof.
  induction a as [|x a IH]; simpl; [reflexivity|].
  now rewrite N.eqb_refl, IH.
Qed.

Lemma includes_suffix (a b : jsstring) : includes (a ++ b) b = true.
Proof.
  induction a as [|x a IH]; simpl.
  - destruct b; simpl; [reflexivity|].
    now rewrite N.eqb_refl, startsWith_refl.
  - rewrite IH. apply orb_true_r.
Qed.

(** C6, as stated, fails: a response that is not OK and whose body is JSON
    without a [description] is reported as "Failed to upload PDF.", a
    message in which the status code, 400, does not occur. *)
Lemma upload_fallback_without_status :
  ok refused = false
  /\ (exists j, json_body refused = Parsed j
                /\ get j (lit "description") = Normal undefined)
  /\ error (fst (handleUpload_settled (Resolved refused) initial))
     = Some (lit "Failed to upload PDF.")
  /\ snd (handleUpload_settled (Resolved refused) initial)
     = [ConsoleError (lit "Upload error:") (Error (lit "Failed to upload PDF."));
        Alert (lit "Upload failed: Failed to upload PDF.")]
  /\ includes (lit "Failed to upload PDF.") (number_to_string (status refused)) = false.
Proof.
  split; [reflexivity|]. split; [|repeat split].
  exists (JObj [(lit "error", JStr (lit "No file part"))]). now split.
Qed.

(** C6, amended. When the response of an upload is not OK, the message
    reported (in the error banner, and in the alert after "Upload failed: ")
    is: "Upload failed with status: " followed by the status code, when
    the body is not JSON; the message of the TypeError that reading
    [description] of [null] throws, when the body is the JSON [null]; and,
    when the body is JSON other than [null], its [description] if that is
    a non-empty string, and "Failed to upload PDF.", without the status
    code, if its [description] is absent or falsy. *)
Theorem upload_failure_message (r : response) (s : State) (Hnok : ok r = false) :
  let s' := fst (handleUpload_settled (Resolved r) s) in
  let effects := snd (handleUpload_settled (Resolved r) s) in
  (forall e,
      json_body r = Unparseable e ->
      error s' = Some (lit "Upload failed with status: " ++ number_to_string (status r))
      /\ includes (lit "Upload failed with status: " ++ number_to_string (status r))
                  (number_to_string (status r)) = true)
  /\ (json_body r = Parsed JNull ->
      error s' = Some (null_read_message (lit "description")))
  /\ (forall j,
        json_body r = Parsed j ->
        j <> JNull ->
        exists description,
          get j (lit "description") = Normal description
          /\ (forall message,
                description = str message -> message <> [] ->
                error s' = Some message)
          /\ (truthy description = false ->
              error s' = Some (lit "Failed to upload PDF.")))
  /\ (exists message,
        error s' = Some message /\ In (Alert (lit "Upload failed: " ++ message)) effects).
Proof.
  intros s' effects. subst s' effects. split; [|split; [|split]].
  - intros e Hbody. split; [|apply includes_suffix].
    rewrite (upload_settled_throw (Resolved r)
               (Error (lit "Upload failed with status: " ++ number_to_string (status r))) s).
    + reflexivity.
    + simpl. rewrite Hnok, Hbody. reflexivity.
  - intros Hbody.
    rewrite (upload_settled_throw (Resolved r)
               (Error (null_read_message (lit "description"))) s).
    + reflexivity.
    + simpl. rewrite Hnok, Hbody. reflexivity.
  - intros j Hbody Hjson.
    destruct (get_not_null j (lit "description") Hjson) as [description Hd].
    exists description. split; [exact Hd|]. split.
    + intros message -> Hne.
      rewrite (upload_settled_throw (Resolved r) (Error message) s).
      * reflexivity.
      * simpl. rewrite Hnok, Hbody. simpl. rewrite Hd. simpl.
        unfold or_else. simpl. destruct message; [contradiction | reflexivity].
    + intros Hfalsy.
      rewrite (upload_settled_throw (Resolved r) (Error (lit "Failed to upload PDF.")) s).
      * reflexivity.
      * simpl. rewrite Hnok, Hbody. simpl. rewrite Hd. simpl.
        unfold or_else. rewrite Hfalsy. reflexivity.
  - destruct (upload_try_failed (Resolved r) Hnok) as [err Herr].
    rewrite (upload_settled_throw _ _ s Herr). simpl.
    eexists. split; [reflexivity|]. right. left. reflexivity.
Qed.

Lemma upload_failure_message_witness :
  error (fst (handleUpload_settled (Resolved unreadable) reuploading))
    = Some (lit "The file has no text layer.")
  /\ error (fst (handleUpload_settled (Resolved refused_null) reuploading))
     = Some (null_read_message (lit "description")).
Proof.
  destruct (upload_failure_message unreadable reuploading eq_refl)
    as [_ [_ [Hjson _]]].
  destruct (upload_failure_message refused_null reuploading eq_refl)
    as [_ [Hnull _]].
  split.
  - destruct (Hjson (JObj [(lit "description", JStr (lit "The file has no text layer."))])
                eq_refl ltac:(discriminate))
      as [description [Hd [Hstring _]]].
    apply (Hstring (lit "The file has no text layer.")); [|discriminate].
    simpl in Hd. injection Hd as <-. reflexivity.
  - apply Hnull. reflexivity.
Defined.

(** C8. An upload sets the document identifier to [null] before it posts
    the file, and an upload that fails leaves the identifier and the
    transcript as it finds them: after a failed upload no document is
    selected, whatever was loaded before, and the transcript is the one
    from before the upload. *)
Theorem failed_upload_selects_nothing
    (file : File) (f : fetched) (err : thrown) (s : State)
    (Hfail : upload_try f = Throw err) :
  let s1 := fst (handleUpload (Some file) s) in
  let s2 := fst (handleUpload_settled f s1) in
  snd (handleUpload (Some file) s) = [FetchUpload file]
  /\ pdfId s1 = null
  /\ pdfId s2 = null
  /\ chatMessages s2 = chatMessages s
  /\ (forall s', pdfId (fst (handleUpload_settled f s')) = pdfId s'
                 /\ chatMessages (fst (handleUpload_settled f s')) = chatMessages s').
Proof.
  intros s1 s2. subst s1 s2.
  rewrite (upload_settled_throw f err _ Hfail).
  repeat split.
  - rewrite (upload_settled_throw f err _ Hfail). reflexivity.
  - rewrite (upload_settled_throw f err _ Hfail). reflexivity.
Qed.

Lemma failed_upload_selects_nothing_witness :
  pdfId (fst (handleUpload_settled (Rejected (Error (lit "Failed to fetch")))
                (fst (handleUpload (Some paper) loaded)))) = null
  /\ chatMessages (fst (handleUpload_settled (Rejected (Error (lit "Failed to fetch")))
                          (fst (handleUpload (Some paper) loaded))))
     = chatMessages loaded.
Proof.
  destruct (failed_upload_selects_nothing paper
              (Rejected (Error (lit "Failed to fetch")))
              (Error (lit "Failed to fetch")) loaded eq_refl)
    as [_ [_ [Hid [Hchat _]]]].
  split; [exact Hid | exact Hchat].
Defined.

(** *** Turning pages *)

Lemma press_numPages (t : turn) (s : State) : numPages (press t s) = numPages s.
Proof. destruct t; reflexivity. Qed.

Lemma press_lower (t : turn) (s : State) :
  (1 <= currentPage s -> 1 <= currentPage (press t s))%Z.
Proof.
  destruct t; simpl.
  - destruct (Z.ltb_spec 1 (currentPage s)); lia.
  - destruct (numPages s) as [n|]; [|lia].
    destruct (negb (n =? 0)%Z && (currentPage s <? n)%Z); lia.
Qed.

Lemma press_upper (t : turn) (s : State) (n : Z) :
  numPages s = Some n ->
  (currentPage s <= n -> currentPage (press t s) <= n)%Z.
Proof.
  intros Hn. destruct t; simpl.
  - destruct (Z.ltb_spec 1 (currentPage s)); lia.
  - rewrite Hn. destruct (negb (n =? 0)%Z); simpl; [|lia].
    destruct (Z.ltb_spec (currentPage s) n); lia.
Qed.

(** C9. Whatever sequence of previous-page and next-page presses is
    applied, the current page stays at least 1, the page count is not
    touched, and when the count is known the current page stays at most
    that count; the current page is 1 in the initial state and is 1 after
    every successful upload. *)
Theorem page_stays_within_bounds (turns : list turn) (s : State)
    (Hlow : (1 <= currentPage s)%Z) :
  (1 <= currentPage (browse turns s))%Z
  /\ numPages (browse turns s) = numPages s
  /\ (forall n, numPages s = Some n ->
                (currentPage s <= n)%Z -> (currentPage (browse turns s) <= n)%Z)
  /\ currentPage initial = 1%Z
  /\ (forall f pdf_id s0,
        upload_try f = Normal pdf_id ->
        currentPage (fst (handleUpload_settled f s0)) = 1%Z).
Proof.
  split; [|split; [|split; [|split]]].
  - revert s Hlow. induction turns as [|t turns IH]; intros s Hlow; simpl.
    + exact Hlow.
    + apply IH. now apply press_lower.
  - revert s Hlow. induction turns as [|t turns IH]; intros s Hlow; simpl.
    + reflexivity.
    + rewrite IH by now apply press_lower. apply press_numPages.
  - revert s Hlow. induction turns as [|t turns IH]; intros s Hlow n Hn Hup; simpl.
    + exact Hup.
    + apply IH.
      * now apply press_lower.
      * now rewrite press_numPages.
      * now apply press_upper.
  - reflexivity.
  - intros f pdf_id s0 Htry.
    destruct (upload_settled_normal f pdf_id s0 Htry) as [cell Hs].
    rewrite Hs. reflexivity.
Qed.

Lemma page_stays_within_bounds_witness :
  (1 <= currentPage (browse [Next; Next; Prev; Prev; Prev; Next] loaded))%Z
  /\ (currentPage (browse [Next; Next; Prev; Prev; Prev; Next] loaded) <= 12)%Z.
Proof.
  destruct (page_stays_within_bounds [Next; Next; Prev; Prev; Prev; Next] loaded)
    as [Hlow [_ [Hup _]]].
  - simpl. lia.
  - split; [exact Hlow|]. apply Hup; [reflexivity | simpl; lia].
Defined.

Lemma handle_page_lower (e : event) (s : State) :
  (1 <= currentPage s -> 1 <= currentPage (fst (handle e s)))%Z.
Proof.
  intros Hlow. destruct e; cbn [handle fst]; try exact Hlow.
  - destruct file as [f|]; [|exact Hlow].
    unfold handleFileChange.
    destruct (jseq (type f) (lit "application/pdf")); exact Hlow.
  - unfold handleUpload_settled.
    destruct (upload_try f) as [pdf_id | err]; [destruct (to_string pdf_id)|]; simpl;
      [lia | lia | exact Hlow].
  - now apply (press_lower Prev).
  - now apply (press_lower Next).
  - unfold handleSendMessage.
    destruct (negb (truthy (str (trim (chatInput s)))) || negb (truthy (pdfId s))
              || isSending s); exact Hlow.
  - unfold handleSendMessage_settled.
    destruct (chat_try f); exact Hlow.
Qed.

(** X11. Whatever happens to the page, its current page is at least 1. *)
Lemma reachable_page_lower (w : world) :
  reachable w -> (1 <= currentPage (page w))%Z.
Proof.
  intros [events Hrun].
  assert (Hstart : (1 <= currentPage (page start))%Z) by (simpl; lia).
  revert Hrun Hstart. generalize start as w0.
  induction events as [|e events IH]; simpl; intros w0 Hrun Hlow.
  - injection Hrun as <-. exact Hlow.
  - destruct (step w0 e) as [w1|] eqn:Hstep; [|discriminate].
    apply (IH w1 Hrun).
    unfold step in Hstep.
    pose proof (handle_page_lower e (page w0) Hlow) as Hnext.
    destruct (handle e (page w0)) as [s1 effects]. simpl in Hnext.
    destruct e;
      try (injection Hstep as <-; exact Hnext);
      match type of Hstep with
      | match ?n with 0 => None | S _ => _ end = _ =>
          destruct n; [discriminate | injection Hstep as <-; exact Hnext]
      end.
Qed.

(** *** One chat request at a time *)

Lemma handle_chat (e : event) (s : State) :
  (isSending (fst (handle e s)), requests is_chat_request (snd (handle e s)))
  = match e with
    | Submit =>
        if negb (truthy (str (trim (chatInput s)))) || negb (truthy (pdfId s))
           || isSending s
        then (isSending s, 0) else (true, 1)
    | ChatSettled _ => (false, 0)
    | _ => (isSending s, 0)
    end.
Proof.
  destruct e; cbn [handle]; try reflexivity.
  - destruct file as [f|]; [|reflexivity].
    unfold handleFileChange.
    destruct (jseq (type f) (lit "application/pdf")); reflexivity.
  - unfold handleUpload_settled.
    destruct (upload_try f) as [pdf_id | err]; [destruct (to_string pdf_id)|];
      reflexivity.
  - unfold handleSendMessage.
    destruct (negb (truthy (str (trim (chatInput s)))) || negb (truthy (pdfId s))
              || isSending s); reflexivity.
  - unfold handleSendMessage_settled.
    destruct (chat_try f); reflexivity.
Qed.

Lemma step_page (w w' : world) (e : event) :
  step w e = Some w' ->
  page w' = fst (handle e (page w))
  /\ match e with
     | ChatSettled _ =>
         S (chats_in_flight w')
         = chats_in_flight w + requests is_chat_request (snd (handle e (page w)))
     | _ =>
         chats_in_flight w'
         = chats_in_flight w + requests is_chat_request (snd (handle e (page w)))
     end.
Proof.
  unfold step. destruct (handle e (page w)) as [s effects]. simpl.
  destruct e;
    try (intros H; injection H as <-; simpl; split; reflexivity).
  - destruct (uploads_in_flight w + requests is_upload_request effects);
      [discriminate|].
    intros H; injection H as <-; simpl; split; reflexivity.
  - destruct (chats_in_flight w + requests is_chat_request effects);
      [discriminate|].
    intros H; injection H as <-; simpl; split; reflexivity.
Qed.

Lemma step_flag_counts (w w' : world) (e : event) :
  flag_counts w -> step w e = Some w' -> flag_counts w'.
Proof.
  unfold flag_counts. intros Hinv Hstep.
  destruct (step_page w w' e Hstep) as [Hpage Hchats].
  pose proof (handle_chat e (page w)) as Hh.
  rewrite Hpage.
  destruct (handle e (page w)) as [s effects]; cbn [fst snd] in *.
  destruct e; try (injection Hh as Hs Hr; rewrite Hs; rewrite Hr in Hchats; lia).
  - destruct (negb (truthy (str (trim (chatInput (page w)))))
              || negb (truthy (pdfId (page w)))); cbn [orb] in Hh.
    + injection Hh as Hs Hr. rewrite Hs. rewrite Hr in Hchats. lia.
    + destruct (isSending (page w));
        injection Hh as Hs Hr; rewrite Hs; rewrite Hr in Hchats; lia.
  - injection Hh as Hs Hr. rewrite Hs. rewrite Hr in Hchats.
    destruct (isSending (page w)); lia.
Qed.

Lemma reachable_flag_counts (w : world) : reachable w -> flag_counts w.
Proof.
  intros [events Hrun].
  assert (Hstart : flag_counts start) by reflexivity.
  revert Hrun Hstart. generalize start as w0.
  induction events as [|e events IH]; simpl; intros w0 Hrun Hinv.
  - injection Hrun as <-. exact Hinv.
  - destruct (step w0 e) as [w1|] eqn:Hstep; [|discriminate].
    apply (IH w1 Hrun). now apply (step_flag_counts w0 w1 e).
Qed.

(** C10. In every state the page can reach, at most one chat request is
    in flight, and one is in flight exactly while [isSending] is set; while
    it is set, a submission changes nothing and posts nothing; only the
    settling of the pending request, whether it succeeds or fails, clears
    the flag, and it always does. *)
Theorem one_chat_request_at_a_time (w : world) (Hreach : reachable w) :
  chats_in_flight w <= 1
  /\ (chats_in_flight w = 1 <-> isSending (page w) = true)
  /\ (isSending (page w) = true ->
        handleSendMessage (page w) = (page w, [PreventDefault])
        /\ step w Submit = Some w)
  /\ (forall e w',
        step w e = Some w' ->
        isSending (page w) = true -> isSending (page w') = false ->
        exists f, e = ChatSettled f)
  /\ (forall f w',
        step w (ChatSettled f) = Some w' ->
        isSending (page w') = false /\ chats_in_flight w' = 0).
Proof.
  pose proof (reachable_flag_counts w Hreach) as Hinv. unfold flag_counts in Hinv.
  split; [|split; [|split; [|split]]].
  - destruct (isSending (page w)); lia.
  - destruct (isSending (page w)); split; (congruence || lia).
  - intros Hs.
    assert (Hnoop : handleSendMessage (page w) = (page w, [PreventDefault])).
    { unfold handleSendMessage. rewrite Hs, !orb_true_r. reflexivity. }
    split; [exact Hnoop|].
    unfold step. simpl. rewrite Hnoop. simpl.
    destruct w as [s chats uploads]. simpl. now rewrite !Nat.add_0_r.
  - intros e w' Hstep Hs Hs'.
    destruct (step_page w w' e Hstep) as [Hpage _].
    pose proof (handle_chat e (page w)) as Hh.
    rewrite <- Hpage, Hs' in Hh.
    destruct e; try (rewrite Hs in Hh; discriminate).
    + rewrite Hs, !orb_true_r in Hh. discriminate.
    + now exists f.
  - intros f w' Hstep.
    pose proof (step_flag_counts w w' _ Hinv Hstep) as Hinv'.
    destruct (step_page w w' _ Hstep) as [Hpage _].
    pose proof (handle_chat (ChatSettled f) (page w)) as Hh.
    rewrite <- Hpage in Hh. injection Hh as Hs' _.
    unfold flag_counts in Hinv'. rewrite Hs' in Hinv'. now split.
Qed.

Lemma asking_pending : run start asking = Some pending.
Proof. vm_compute. reflexivity. Qed.

Lemma one_chat_request_at_a_time_witness :
  chats_in_flight pending <= 1
  /\ isSending (page pending) = true
  /\ step pending Submit = Some pending.
Proof.
  destruct (one_chat_request_at_a_time pending) as [Hone [_ [Hnoop _]]].
  - exists asking. exact asking_pending.
  - split; [exact Hone|]. split; [reflexivity|]. apply Hnoop. reflexivity.
Defined.

End PageProps.

(* ===================================================================== *)
(** ** Properties of the chunker *)
(* ===================================================================== *)

Module ChunkerProps.
Import Chunker Scenarios.

Section ChunkProps.

Context {A : Type}.
Implicit Types (text : list A) (c d : Chunk A).

Lemma window_length text pos size :
  List.length (window text pos size) = Nat.min size (List.length text - pos).
Proof.
  unfold window. now rewrite length_firstn, length_skipn.
Qed.

Lemma slide_nonempty text s o i pos :
  o < s -> slide text s o i pos <> [].
Proof.
  intros Hcfg. funelim (slide text s o i pos); try discriminate.
  contradiction.
Qed.

(** The [k]-th chunk of a slide begun at [pos]: where it lies, what it
    holds, and that it is the last one exactly when its window reaches the
    end of the text. *)
Lemma slide_nth text s o i pos :
  o < s -> pos < List.length text ->
  forall k c,
    nth_error (slide text s o i pos) k = Some c ->
    index c = i + k
    /\ start c = pos + k * (s - o)
    /\ stop c = Nat.min (start c + s) (List.length text)
    /\ content c = window text (start c) s
    /\ start c < List.length text
    /\ (nth_error (slide text s o i pos) (S k) = None
        <-> List.length text <= start c + s).
Proof.
  intros Hcfg. funelim (slide text s o i pos); intros Hpos k c Hk.
  - destruct k as [|k]; simpl in Hk.
    + injection Hk as <-. simpl. repeat split; try lia.
    + destruct k; discriminate.
  - destruct k as [|k]; simpl in Hk.
    + injection Hk as <-. simpl. repeat split; try lia.
      intros Hnone. exfalso.
      destruct (slide text chunk_size overlap (S i) (pos + (chunk_size - overlap)))
        eqn:E; [|discriminate].
      now apply slide_nonempty in E.
    + match goal with
      | IH : _ -> _ -> forall k c, _ |- _ =>
          destruct (IH Hcfg ltac:(lia) k c Hk)
            as [Hi [Hstart [Hstop [Hcontent [Hlt Hlast]]]]]
      end.
      repeat split; try lia; try assumption.
      * intros Hnone. apply Hlast. exact Hnone.
      * intros Hle. apply Hlast in Hle. exact Hle.
  - contradiction.
Qed.

(** Every offset from [pos] on lies in some chunk of the slide. *)
Lemma slide_covers text s o i pos :
  o < s ->
  forall x, pos <= x < List.length text ->
  exists c, In c (slide text s o i pos) /\ start c <= x < stop c.
Proof.
  intros Hcfg. funelim (slide text s o i pos); intros x Hx.
  - eexists. split; [left; reflexivity|]. simpl. lia.
  - destruct (Nat.lt_ge_cases x (pos + chunk_size)) as [Hin | Hout].
    + eexists. split; [left; reflexivity|]. simpl. lia.
    + match goal with
      | IH : _ -> forall x, _ |- _ =>
          destruct (IH Hcfg x ltac:(lia)) as [c [Hc Hspan]]
      end.
      exists c. split; [right; exact Hc | exact Hspan].
  - contradiction.
Qed.

(** C7. For a text of length L and a configuration with
    [0 <= overlap < chunk_size], chunking succeeds, and: the [k]-th chunk
    starts at [k * (chunk_size - overlap)] and is the window of
    [chunk_size] characters from there, cut at L; every offset below L
    lies in the span of some chunk; two consecutive chunks have exactly
    [overlap] offsets in common; every chunk but the last is [chunk_size]
    long, and no chunk is empty or longer than that. *)
Theorem chunk_coverage text (chunk_size overlap : nat)
    (Hcfg : 0 <= overlap < chunk_size) :
  exists chunks,
    chunk text chunk_size overlap = inr chunks
    /\ (forall k c,
          nth_error chunks k = Some c ->
          index c = k
          /\ start c = k * (chunk_size - overlap)
          /\ stop c = Nat.min (start c + chunk_size) (List.length text)
          /\ content c = window text (start c) chunk_size
          /\ List.length (content c) = stop c - start c)
    /\ (forall x,
          x < List.length text ->
          exists c, In c chunks /\ start c <= x < stop c)
    /\ (forall k c d,
          nth_error chunks k = Some c ->
          nth_error chunks (S k) = Some d ->
          stop c - start c = chunk_size
          /\ start d = start c + (chunk_size - overlap)
          /\ shared c d = overlap)
    /\ (forall k c,
          nth_error chunks k = Some c ->
          0 < stop c - start c <= chunk_size).
Proof.
  assert (Ho : overlap < chunk_size) by lia.
  unfold chunk. destruct (Nat.ltb_spec overlap chunk_size) as [_ | Hbad]; [|lia].
  destruct text as [|a text'] eqn:Etext.
  - exists []. split; [reflexivity|]. split; [|split; [|split]].
    + intros [|k] c Hk; discriminate.
    + simpl. intros x Hx. lia.
    + intros [|k] c d Hk; discriminate.
    + intros [|k] c Hk; discriminate.
  - rewrite <- Etext.
    assert (Hpos : 0 < List.length text) by (rewrite Etext; simpl; lia).
    clear Etext a text'.
    exists (slide text chunk_size overlap 0 0). split; [reflexivity|].
    pose proof (slide_nth text chunk_size overlap 0 0 Ho Hpos) as Hnth.
    split; [|split; [|split]].
    + intros k c Hk.
      destruct (Hnth k c Hk) as [Hi [Hstart [Hstop [Hcontent [Hlt _]]]]].
      repeat split; try assumption.
      rewrite Hcontent, window_length. lia.
    + intros x Hx. apply slide_covers; [exact Ho | lia].
    + intros k c d Hc Hd.
      destruct (Hnth k c Hc) as [_ [Hcs [Hce [_ [_ Hlast]]]]].
      destruct (Hnth (S k) d Hd) as [_ [Hds [Hde [_ [Hdlt _]]]]].
      assert (Hmore : List.length text > start c + chunk_size).
      { destruct (Nat.le_gt_cases (List.length text) (start c + chunk_size)) as [Hle|Hgt];
          [|exact Hgt].
        apply Hlast in Hle. congruence. }
      unfold shared. simpl in Hds. nia.
    + intros k c Hk.
      destruct (Hnth k c Hk) as [_ [_ [Hstop [_ [Hlt _]]]]]. lia.
Qed.

End ChunkProps.

Lemma chunk_coverage_witness :
  exists chunks,
    chunk abcd 9 3 = inr chunks
    /\ (forall x, x < 19 -> exists c, In c chunks /\ start c <= x < stop c).
Proof.
  destruct (chunk_coverage abcd 9 3) as [chunks [Hchunk [_ [Hcover _]]]].
  - lia.
  - exists chunks. split; [exact Hchunk | exact Hcover].
Defined.

End ChunkerProps.

(* ===================================================================== *)
(** ** Further properties of the page *)
(* ===================================================================== *)

Module PageMore.
Import Js Page App View Scenarios MoreScenarios PageProps.

(** *** What an event does to the upload flag, the document and the requests *)

Lemma handle_upload (e : event) (s : State) :
  (uploading (fst (handle e s)), requests is_upload_request (snd (handle e s)))
  = match e with
    | FileChange (Some f) =>
        if jseq (type f) (lit "application/pdf") then (true, 1) else (uploading s, 0)
    | UploadSettled _ => (false, 0)
    | _ => (uploading s, 0)
    end.
Proof.
  destruct e; cbn [handle]; try reflexivity.
  - destruct file as [f|]; [|reflexivity].
    unfold handleFileChange.
    destruct (jseq (type f) (lit "application/pdf")); reflexivity.
  - unfold handleUpload_settled.
    destruct (upload_try f) as [pdf_id | err]; [destruct (to_string pdf_id)|];
      reflexivity.
  - unfold handleSendMessage.
    destruct (negb (truthy (str (trim (chatInput s)))) || negb (truthy (pdfId s))
              || isSending s); reflexivity.
  - unfold handleSendMessage_settled.
    destruct (chat_try f); reflexivity.
Qed.

Lemma handle_pdfId (e : event) (s : State) :
  pdfId (fst (handle e s))
  = match e with
    | FileChange (Some f) =>
        if jseq (type f) (lit "application/pdf") then null else pdfId s
    | UploadSettled f =>
        match upload_try f with
        | Normal pdf_id => pdf_id
        | Throw _ => pdfId s
        end
    | _ => pdfId s
    end.
Proof.
  destruct e; cbn [handle]; try reflexivity.
  - destruct file as [f|]; [|reflexivity].
    unfold handleFileChange.
    destruct (jseq (type f) (lit "application/pdf")); reflexivity.
  - unfold handleUpload_settled.
    destruct (upload_try f) as [pdf_id | err]; [destruct (to_string pdf_id)|];
      reflexivity.
  - unfold handleSendMessage.
    destruct (negb (truthy (str (trim (chatInput s)))) || negb (truthy (pdfId s))
              || isSending s); reflexivity.
  - unfold handleSendMessage_settled.
    destruct (chat_try f); reflexivity.
Qed.

Lemma step_uploads (w w' : world) (e : event) :
  step w e = Some w' ->
  page w' = fst (handle e (page w))
  /\ match e with
     | UploadSettled _ =>
         S (uploads_in_flight w')
         = uploads_in_flight w + requests is_upload_request (snd (handle e (page w)))
     | _ =>
         uploads_in_flight w'
         = uploads_in_flight w + requests is_upload_request (snd (handle e (page w)))
     end.
Proof.
  unfold step. destruct (handle e (page w)) as [s effects]. simpl.
  destruct e;
    try (intros H; injection H as <-; simpl; split; reflexivity).
  - destruct (uploads_in_flight w + requests is_upload_request effects);
      [discriminate|].
    intros H; injection H as <-; simpl; split; reflexivity.
  - destruct (chats_in_flight w + requests is_chat_request effects);
      [discriminate|].
    intros H; injection H as <-; simpl; split; reflexivity.
Qed.

Lemma reachable_ind (P : world -> Prop) :
  P start ->
  (forall w e w', P w -> step w e = Some w' -> P w') ->
  forall w, reachable w -> P w.
Proof.
  intros Hstart Hstep w [events Hrun].
  revert Hrun Hstart. generalize start as w0.
  induction events as [|e events IH]; simpl; intros w0 Hrun H0.
  - injection Hrun as <-. exact H0.
  - destruct (step w0 e) as [w1|] eqn:E; [|discriminate].
    apply (IH w1 Hrun). exact (Hstep w0 e w1 H0 E).
Qed.

Lemma uploading_step (w w' : world) (e : event) :
  (uploading (page w) = true -> pdfId (page w) = null /\ 1 <= uploads_in_flight w) ->
  step w e = Some w' ->
  uploading (page w') = true -> pdfId (page w') = null /\ 1 <= uploads_in_flight w'.
Proof.
  intros Hinv Hstep.
  destruct (step_uploads w w' e Hstep) as [Hpage Hcount].
  pose proof (handle_upload e (page w)) as Hu.
  pose proof (handle_pdfId e (page w)) as Hp.
  rewrite Hpage, Hp.
  destruct (handle e (page w)) as [s effects]; cbn [fst snd] in *.
  destruct e;
    try (injection Hu as Hs Hr; rewrite Hs; rewrite Hr in Hcount;
         intros Hup; destruct (Hinv Hup) as [Hnull Hone]; split; [exact Hnull | lia]).
  - destruct file as [f|].
    + destruct (jseq (type f) (lit "application/pdf")).
      * injection Hu as Hs Hr. rewrite Hr in Hcount. intros _. split; [reflexivity | lia].
      * injection Hu as Hs Hr. rewrite Hs. rewrite Hr in Hcount.
        intros Hup. destruct (Hinv Hup) as [Hnull Hone]. split; [exact Hnull | lia].
    + injection Hu as Hs Hr. rewrite Hs. rewrite Hr in Hcount.
      intros Hup. destruct (Hinv Hup) as [Hnull Hone]. split; [exact Hnull | lia].
  - injection Hu as Hs Hr. rewrite Hs. discriminate.
Qed.

(** X6. While the page shows an upload in progress, in any state it can
    reach: no document is selected, an upload request is in flight, the
    viewer holds no document, the Send button is disabled and a submission
    is ignored. *)
Theorem nothing_selected_while_uploading (w : world)
    (Hreach : reachable w) (Hup : uploading (page w) = true) :
  pdfId (page w) = null
  /\ 1 <= uploads_in_flight w
  /\ documentFile (render (page w)) = None
  /\ sendDisabled (render (page w)) = true
  /\ handleSendMessage (page w) = (page w, [PreventDefault]).
Proof.
  assert (Hinv : pdfId (page w) = null /\ 1 <= uploads_in_flight w).
  { revert Hup. pattern w. apply reachable_ind; [discriminate | | exact Hreach].
    intros w0 e w1 H0 Hstep. exact (uploading_step w0 w1 e H0 Hstep). }
  destruct Hinv as [Hnull Hone].
  split; [exact Hnull|]. split; [exact Hone|].
  unfold render, handleSendMessage. simpl. rewrite Hnull. simpl.
  rewrite !orb_true_r. repeat split.
Qed.

Lemma uploading_paper_reachable : reachable uploading_paper.
Proof. exists [UploadButtonClick; FileChange (Some paper)]. vm_compute. reflexivity. Qed.

Lemma nothing_selected_while_uploading_witness :
  pdfId (page uploading_paper) = null
  /\ 1 <= uploads_in_flight uploading_paper
  /\ documentFile (render (page uploading_paper)) = None
  /\ sendDisabled (render (page uploading_paper)) = true
  /\ handleSendMessage (page uploading_paper) = (page uploading_paper, [PreventDefault]).
Proof.
  apply (nothing_selected_while_uploading uploading_paper).
  - exact uploading_paper_reachable.
  - reflexivity.
Defined.

(** *** One upload at a time, on the page as rendered *)

Lemma offered_ind (P : world -> Prop) :
  P start ->
  (forall w e w', P w -> offered (page w) e = true -> step w e = Some w' -> P w') ->
  forall w, reachable_offered w -> P w.
Proof.
  intros Hstart Hstep w [events Hrun].
  revert Hrun Hstart. generalize start as w0.
  induction events as [|e events IH]; simpl; intros w0 Hrun H0.
  - injection Hrun as <-. exact H0.
  - destruct (offered (page w0) e) eqn:Hoff; [|discriminate].
    destruct (step w0 e) as [w1|] eqn:E; [|discriminate].
    apply (IH w1 Hrun). exact (Hstep w0 e w1 H0 Hoff E).
Qed.

Lemma upload_flag_counts_step (w w' : world) (e : event) :
  uploads_in_flight w = (if uploading (page w) then 1 else 0) ->
  offered (page w) e = true ->
  step w e = Some w' ->
  uploads_in_flight w' = (if uploading (page w') then 1 else 0).
Proof.
  intros Hinv Hoff Hstep.
  destruct (step_uploads w w' e Hstep) as [Hpage Hcount].
  pose proof (handle_upload e (page w)) as Hu.
  rewrite Hpage.
  destruct (handle e (page w)) as [s effects]; cbn [fst snd] in *.
  destruct e;
    try (injection Hu as Hs Hr; rewrite Hs; rewrite Hr in Hcount; lia).
  - unfold offered, render in Hoff. cbn [uploadDisabled] in Hoff.
    apply negb_true_iff in Hoff. rewrite Hoff in Hinv, Hu.
    destruct file as [f|].
    + destruct (jseq (type f) (lit "application/pdf"));
        injection Hu as Hs Hr; rewrite Hs; rewrite Hr in Hcount; lia.
    + injection Hu as Hs Hr. rewrite Hs. rewrite Hr in Hcount. lia.
  - injection Hu as Hs Hr. rewrite Hs. rewrite Hr in Hcount.
    destruct (uploading (page w)); lia.
Qed.

(** X7. When every event is one the rendered page offers (the upload button
    is disabled while [uploading] is set), at most one upload request is
    in flight, and one is in flight exactly while [uploading] is set. *)
Theorem one_upload_at_a_time (w : world) (Hreach : reachable_offered w) :
  uploads_in_flight w <= 1
  /\ (uploads_in_flight w = 1 <-> uploading (page w) = true).
Proof.
  assert (Hinv : uploads_in_flight w = if uploading (page w) then 1 else 0).
  { pattern w. apply offered_ind; [reflexivity | | exact Hreach].
    intros w0 e w1 H0 Hoff Hstep. exact (upload_flag_counts_step w0 w1 e H0 Hoff Hstep). }
  destruct (uploading (page w)); split; try lia; split; (congruence || lia).
Qed.

Lemma one_upload_at_a_time_witness :
  uploads_in_flight uploading_paper <= 1
  /\ (uploads_in_flight uploading_paper = 1 <-> uploading (page uploading_paper) = true).
Proof.
  apply (one_upload_at_a_time uploading_paper).
  exists [UploadButtonClick; FileChange (Some paper)]. vm_compute. reflexivity.
Defined.

(** *** What each event can change *)

Lemma handle_currentPage (e : event) (s : State) :
  currentPage (fst (handle e s))
  = match e with
    | PrevPage => currentPage (goToPrevPage s)
    | NextPage => currentPage (goToNextPage s)
    | UploadSettled f =>
        match upload_try f with
        | Normal _ => 1%Z
        | Throw _ => currentPage s
        end
    | _ => currentPage s
    end.
Proof.
  destruct e; cbn [handle]; try reflexivity.
  - destruct file as [f|]; [|reflexivity].
    unfold handleFileChange.
    destruct (jseq (type f) (lit "application/pdf")); reflexivity.
  - unfold handleUpload_settled.
    destruct (upload_try f) as [pdf_id | err]; [destruct (to_string pdf_id)|];
      reflexivity.
  - unfold handleSendMessage.
    destruct (negb (truthy (str (trim (chatInput s)))) || negb (truthy (pdfId s))
              || isSending s); reflexivity.
  - unfold handleSendMessage_settled.
    destruct (chat_try f); reflexivity.
Qed.

Lemma handle_numPages (e : event) (s : State) :
  numPages (fst (handle e s))
  = match e with
    | DocumentLoadSuccess n => Some n
    | UploadSettled f =>
        match upload_try f with
        | Normal _ => None
        | Throw _ => numPages s
        end
    | _ => numPages s
    end.
Proof.
  destruct e; cbn [handle]; try reflexivity.
  - destruct file as [f|]; [|reflexivity].
    unfold handleFileChange.
    destruct (jseq (type f) (lit "application/pdf")); reflexivity.
  - unfold handleUpload_settled.
    destruct (upload_try f) as [pdf_id | err]; [destruct (to_string pdf_id)|];
      reflexivity.
  - unfold handleSendMessage.
    destruct (negb (truthy (str (trim (chatInput s)))) || negb (truthy (pdfId s))
              || isSending s); reflexivity.
  - unfold handleSendMessage_settled.
    destruct (chat_try f); reflexivity.
Qed.

(** X8. The selected document changes only when a file is chosen or an upload
    settles; the current page only on a page button or a settled upload;
    the page count only when the viewer reports it or an upload settles.
    No chat event, typing or load error touches any of the three. *)
Theorem document_state_changes (e : event) (s : State) :
  (pdfId (fst (handle e s)) <> pdfId s ->
     (exists file, e = FileChange (Some file)) \/ (exists f, e = UploadSettled f))
  /\ (currentPage (fst (handle e s)) <> currentPage s ->
        e = PrevPage \/ e = NextPage \/ (exists f, e = UploadSettled f))
  /\ (numPages (fst (handle e s)) <> numPages s ->
        (exists n, e = DocumentLoadSuccess n) \/ (exists f, e = UploadSettled f)).
Proof.
  rewrite handle_pdfId, handle_currentPage, handle_numPages.
  split; [|split]; intros Hchg;
    destruct e; try contradiction; eauto.
  destruct file as [f|]; [eauto | contradiction].
Qed.

(** *** The transcript *)

(** X9. An event either leaves the transcript a prefix of the new one, which
    is longer by at most one message, or it is a successful upload and the
    new transcript is empty. *)
Theorem transcript_grows_or_clears (e : event) (s : State) :
  (exists added,
      chatMessages (fst (handle e s)) = chatMessages s ++ added
      /\ List.length added <= 1)
  \/ (exists f pdf_id,
        e = UploadSettled f /\ upload_try f = Normal pdf_id
        /\ chatMessages (fst (handle e s)) = []).
Proof.
  assert (Hsame : forall s' : State,
             chatMessages s' = chatMessages s ->
             exists added, chatMessages s' = chatMessages s ++ added
                           /\ List.length added <= 1).
  { intros s' H. exists []. rewrite app_nil_r. split; [exact H | simpl; lia]. }
  destruct e; cbn [handle fst];
    try (left; apply Hsame; reflexivity).
  - left. apply Hsame. destruct file as [f|]; [|reflexivity].
    unfold handleFileChange.
    destruct (jseq (type f) (lit "application/pdf")); reflexivity.
  - destruct (upload_try f) as [pdf_id | err] eqn:Htry.
    + right. exists f, pdf_id. split; [reflexivity|]. split; [exact Htry|].
      destruct (upload_settled_normal f pdf_id s Htry) as [cell Hs].
      rewrite Hs. reflexivity.
    + left. apply Hsame.
      rewrite (upload_settled_throw f err s Htry). reflexivity.
  - left. unfold handleSendMessage.
    destruct (negb (truthy (str (trim (chatInput s)))) || negb (truthy (pdfId s))
              || isSending s).
    + apply Hsame. reflexivity.
    + eexists. split; [reflexivity | simpl; lia].
  - left. destruct (chat_try f) as [answer | err] eqn:Htry.
    + rewrite (chat_settled_normal f answer s Htry).
      eexists. split; [reflexivity | simpl; lia].
    + rewrite (chat_settled_throw f err s Htry).
      eexists. split; [reflexivity | simpl; lia].
Qed.

(** X10. An answer that arrives after an upload has succeeded: the upload
    leaves the turn pending and empties the transcript, so the reply, or
    the report of its failure, ends up the only message of the new
    document's transcript. *)
Theorem reply_after_upload (fu fc : fetched) (pdf_id : value) (s : State)
    (Hupload : upload_try fu = Normal pdf_id) :
  let s1 := fst (handleUpload_settled fu s) in
  let s2 := fst (handleSendMessage_settled fc s1) in
  isSending s1 = isSending s
  /\ pdfId s2 = pdf_id
  /\ exists reply, chatMessages s2 = [{| sender := ai; text := reply |}].
Proof.
  intros s1 s2. subst s1 s2.
  destruct (upload_settled_normal fu pdf_id s Hupload) as [cell Hs1]. rewrite Hs1.
  split; [reflexivity|].
  destruct (chat_try fc) as [answer | err] eqn:Htry.
  - rewrite (chat_settled_normal fc answer _ Htry).
    split; [reflexivity|]. eexists. reflexivity.
  - rewrite (chat_settled_throw fc err _ Htry).
    split; [reflexivity|]. eexists. reflexivity.
Qed.

Lemma reply_after_upload_witness :
  exists reply,
    chatMessages
      (fst (handleSendMessage_settled (Resolved answered)
              (fst (handleUpload_settled (Resolved uploaded) loaded))))
    = [{| sender := ai; text := reply |}].
Proof.
  destruct (reply_after_upload (Resolved uploaded) (Resolved answered)
              (str (lit "paper.pdf")) loaded eq_refl) as [_ [_ H]].
  exact H.
Defined.

(** *** Page buttons *)

Lemma press_Next_page (s : State) (n : Z) :
  numPages s = Some n -> (1 <= currentPage s <= n)%Z ->
  currentPage (press Next s) = Z.min (currentPage s + 1) n.
Proof.
  intros Hn Hb. simpl. rewrite Hn.
  destruct (Z.eqb_spec n 0); simpl; [lia|].
  destruct (Z.ltb_spec (currentPage s) n); lia.
Qed.

Lemma press_Prev_page (s : State) :
  (1 <= currentPage s)%Z ->
  currentPage (press Prev s) = Z.max (currentPage s - 1) 1.
Proof.
  intros Hb. simpl. destruct (Z.ltb_spec 1 (currentPage s)); lia.
Qed.

(** X12. With a known page count that is a safe integer, pressing Next and
    then Previous on a page that is not the last, or Previous and then
    Next on a page that is not the first, gives back the very same
    state. *)
Theorem page_turn_round_trip (s : State) (n : Z)
    (Hn : numPages s = Some n) (Hsafe : safe_integer n) :
  ((1 <= currentPage s < n)%Z -> goToPrevPage (goToNextPage s) = s)
  /\ ((1 < currentPage s <= n)%Z -> goToNextPage (goToPrevPage s) = s).
Proof.
  destruct s as [file id up err pages p msgs input sending].
  simpl in Hn. subst pages.
  unfold goToPrevPage, goToNextPage, setCurrentPage. simpl. split; intros Hb.
  - destruct (Z.eqb_spec n 0); [lia|]. simpl.
    destruct (Z.ltb_spec p n); [|lia].
    destruct (Z.ltb_spec 1 (p + 1)); [|lia].
    replace (p + 1 - 1)%Z with p by lia. reflexivity.
  - destruct (Z.ltb_spec 1 p); [|lia].
    destruct (Z.eqb_spec n 0); [lia|]. simpl.
    destruct (Z.ltb_spec (p - 1) n); [|lia].
    replace (p - 1 + 1)%Z with p by lia. reflexivity.
Qed.

Lemma page_turn_round_trip_witness :
  goToPrevPage (goToNextPage midway) = midway
  /\ goToNextPage (goToPrevPage midway) = midway.
Proof.
  destruct (page_turn_round_trip midway 12 eq_refl) as [Hnp Hpn].
  - unfold safe_integer. lia.
  - split; [apply Hnp | apply Hpn]; simpl; lia.
Defined.

(** X13. With a known page count [n] that is a safe integer and the
    current page [p] within [1, n]: [k] presses of Next lead to page
    [min (p + k) n], and [k] presses of Previous to page
    [max (p - k) 1]. *)
Theorem repeated_presses (k : nat) (s : State) (n : Z)
    (Hn : numPages s = Some n) (Hsafe : safe_integer n)
    (Hb : (1 <= currentPage s <= n)%Z) :
  currentPage (browse (repeat Next k) s) = Z.min (currentPage s + Z.of_nat k) n
  /\ currentPage (browse (repeat Prev k) s) = Z.max (currentPage s - Z.of_nat k) 1.
Proof.
  split.
  - revert s Hn Hb. induction k as [|k IH]; intros s Hn Hb.
    + simpl. lia.
    + cbn [repeat browse fold_left]. fold (browse (repeat Next k) (press Next s)).
      pose proof (press_Next_page s n Hn Hb) as Hp.
      rewrite IH.
      * rewrite Hp. lia.
      * now rewrite press_numPages.
      * rewrite Hp. lia.
  - revert s Hn Hb. induction k as [|k IH]; intros s Hn Hb.
    + simpl. lia.
    + cbn [repeat browse fold_left]. fold (browse (repeat Prev k) (press Prev s)).
      pose proof (press_Prev_page s ltac:(lia)) as Hp.
      rewrite IH.
      * rewrite Hp. lia.
      * now rewrite press_numPages.
      * rewrite Hp. lia.
Qed.

Lemma repeated_presses_witness :
  currentPage (browse (repeat Next 20) midway) = 12%Z
  /\ currentPage (browse (repeat Prev 3) midway) = 2%Z.
Proof.
  assert (Hsafe : safe_integer 12) by (unfold safe_integer; lia).
  destruct (repeated_presses 20 midway 12 eq_refl Hsafe ltac:(simpl; lia)) as [Hnext _].
  destruct (repeated_presses 3 midway 12 eq_refl Hsafe ltac:(simpl; lia)) as [_ Hprev].
  split; [rewrite Hnext | rewrite Hprev]; reflexivity.
Defined.

Lemma browse_unknown_count (turns : list turn) (s : State) :
  numPages s = None -> currentPage s = 1%Z ->
  currentPage (browse turns s) = 1%Z /\ numPages (browse turns s) = None.
Proof.
  revert s. induction turns as [|t turns IH]; intros s Hn Hp.
  - now split.
  - cbn [browse fold_left]. fold (browse turns (press t s)).
    apply IH.
    + now rewrite press_numPages.
    + destruct t; simpl; rewrite ?Hn, Hp; reflexivity.
Qed.

(** X14. After a successful upload, and until the viewer reports a page count,
    the page buttons do nothing: the current page stays 1 whatever is
    pressed, and the page shows no pagination controls. *)
Theorem page_one_until_loaded (f : fetched) (pdf_id : value) (turns : list turn)
    (s : State) (Hupload : upload_try f = Normal pdf_id) :
  currentPage (browse turns (fst (handleUpload_settled f s))) = 1%Z
  /\ numPages (browse turns (fst (handleUpload_settled f s))) = None
  /\ pagination (render (browse turns (fst (handleUpload_settled f s)))) = None.
Proof.
  destruct (upload_settled_normal f pdf_id s Hupload) as [cell Hs1]. rewrite Hs1.
  match goal with |- context [browse turns ?s1] =>
    destruct (browse_unknown_count turns s1 eq_refl eq_refl) as [Hp Hn]
  end.
  split; [exact Hp|]. split; [exact Hn|].
  unfold render. cbn [pagination]. rewrite Hn. reflexivity.
Qed.

Lemma page_one_until_loaded_witness :
  currentPage (browse [Next; Next; Prev]
                 (fst (handleUpload_settled (Resolved uploaded) midway))) = 1%Z.
Proof.
  apply (page_one_until_loaded (Resolved uploaded) (str (lit "paper.pdf"))
           [Next; Next; Prev] midway eq_refl).
Defined.

Lemma reachable_page_lower_witness : (1 <= currentPage (page pending))%Z.
Proof.
  apply (reachable_page_lower pending). exists asking. exact asking_pending.
Defined.

(** *** The controls agree with the handlers *)

(** X15. The Send button is disabled exactly when a submission would be
    ignored. *)
Theorem send_disabled_iff_ignored (s : State) :
  sendDisabled (render s) = true <-> handleSendMessage s = (s, [PreventDefault]).
Proof.
  unfold render, handleSendMessage. cbn [sendDisabled].
  replace (negb (truthy (str (trim (chatInput s)))) || isSending s
           || negb (truthy (pdfId s)))
    with (negb (truthy (str (trim (chatInput s)))) || negb (truthy (pdfId s))
          || isSending s)
    by (destruct (negb (truthy (str (trim (chatInput s))))),
                 (isSending s), (negb (truthy (pdfId s))); reflexivity).
  destruct (negb (truthy (str (trim (chatInput s)))) || negb (truthy (pdfId s))
            || isSending s).
  - split; reflexivity.
  - split; intros H; [discriminate|].
    apply (f_equal snd) in H. discriminate.
Qed.

(** X16. When the pagination controls are shown, and the current page and
    the page count are safe integers, the Previous button is disabled
    exactly when [goToPrevPage] would leave the state as it is, and the
    Next button exactly when [goToNextPage] would. *)
Theorem page_buttons_disabled_iff_idle (s : State) (n : Z) (p : Pagination)
    (Hshown : pagination (render s) = Some p)
    (Hn : numPages s = Some n)
    (Hpage : safe_integer (currentPage s))
    (Hcount : safe_integer n) :
  (prevDisabled p = true <-> goToPrevPage s = s)
  /\ (nextDisabled p = true <-> goToNextPage s = s).
Proof.
  destruct s as [file id up err pages page msgs input sending].
  unfold render in Hshown. cbn [pagination numPages pdfId currentPage] in Hshown.
  cbn [numPages] in Hn. subst pages. clear Hpage Hcount.
  destruct (truthy id && negb (n =? 0)%Z) eqn:Hn; [|discriminate].
  injection Hshown as <-. cbn [prevDisabled nextDisabled].
  apply andb_true_iff in Hn as [_ Hn].
  unfold goToPrevPage, goToNextPage, setCurrentPage. simpl. rewrite Hn. simpl.
  split; split; intros H.
  - apply Z.leb_le in H. destruct (Z.ltb_spec 1 page); [lia | reflexivity].
  - apply (f_equal currentPage) in H. simpl in H.
    apply Z.leb_le. destruct (Z.ltb_spec 1 page); lia.
  - apply Z.leb_le in H. destruct (Z.ltb_spec page n); [lia | reflexivity].
  - apply (f_equal currentPage) in H. simpl in H.
    apply Z.leb_le. destruct (Z.ltb_spec page n); lia.
Qed.

Lemma page_buttons_disabled_iff_idle_witness :
  exists p,
    pagination (render loaded) = Some p
    /\ (prevDisabled p = true <-> goToPrevPage loaded = loaded)
    /\ (nextDisabled p = true <-> goToNextPage loaded = loaded).
Proof.
  eexists. split; [reflexivity|].
  apply (page_buttons_disabled_iff_idle loaded 12);
    [reflexivity | reflexivity | unfold safe_integer; simpl; lia
     | unfold safe_integer; lia].
Defined.

(** *** A selection that is not uploaded *)

(** X5. Closing the dialog without a file, or choosing a file whose type is
    not "application/pdf", posts nothing and leaves the document, its
    pages, the transcript, the question box and both busy flags as they
    were; only the selection is dropped and the error reported. *)
Theorem refused_selection_keeps_document (file : option File) (s : State)
    (Hrefused : match file with
                | Some f => type f <> lit "application/pdf"
                | None => True
                end) :
  let s' := fst (handleFileChange file s) in
  snd (handleFileChange file s) = [Alert (lit "Please select a valid PDF file.")]
  /\ error s' = Some (lit "Please select a valid PDF file.")
  /\ selectedFile s' = None
  /\ pdfId s' = pdfId s
  /\ numPages s' = numPages s
  /\ currentPage s' = currentPage s
  /\ chatMessages s' = chatMessages s
  /\ chatInput s' = chatInput s
  /\ uploading s' = uploading s
  /\ isSending s' = isSending s.
Proof.
  unfold handleFileChange. destruct file as [f|].
  - destruct (jseq (type f) (lit "application/pdf")) eqn:Hty.
    + apply jseq_eq in Hty. contradiction.
    + repeat split.
  - repeat split.
Qed.

Lemma refused_selection_keeps_document_witness :
  pdfId (fst (handleFileChange None loaded)) = pdfId loaded
  /\ chatMessages (fst (handleFileChange (Some png) loaded)) = chatMessages loaded.
Proof.
  split.
  - apply (refused_selection_keeps_document None loaded I).
  - apply (refused_selection_keeps_document (Some png) loaded).
    vm_compute. discriminate.
Defined.

(** *** A submission that is accepted *)

(** X1. A submission with a question that is not blank, a document selected
    and no turn pending posts one chat request, carrying the selected
    identifier and the question as typed (not trimmed); it appends the
    question to the transcript, empties the question box, sets the
    sending flag and clears the error. *)
Theorem accepted_submission (s : State)
    (Hquestion : trim (chatInput s) <> [])
    (Hdocument : truthy (pdfId s) = true)
    (Hidle : isSending s = false) :
  let s' := fst (handleSendMessage s) in
  snd (handleSendMessage s) = [PreventDefault; FetchChat (pdfId s) (chatInput s)]
  /\ chatMessages s' = chatMessages s ++ [{| sender := user; text := str (chatInput s) |}]
  /\ chatInput s' = []
  /\ isSending s' = true
  /\ error s' = None
  /\ sendDisabled (render s') = true.
Proof.
  intros s'. subst s'.
  rewrite (submit_accepted s Hquestion Hdocument Hidle).
  repeat split.
Qed.

Lemma accepted_submission_witness :
  snd (handleSendMessage (reading (lit " why? ")))
    = [PreventDefault; FetchChat (str (lit "paper.pdf")) (lit " why? ")]
  /\ chatInput (fst (handleSendMessage (reading (lit " why? ")))) = [].
Proof.
  destruct (accepted_submission (reading (lit " why? "))) as [Heff [_ [Hinput _]]].
  - vm_compute. discriminate.
  - reflexivity.
  - reflexivity.
  - split; [exact Heff | exact Hinput].
Defined.

(** *** What a failed chat turn says *)

(** X2. When the response of a chat turn is not OK, the error put after
    "Sorry, I encountered an error: " in the transcript and after
    "Chat failed: " in the banner is: the message of the parse error, when
    the body is not JSON; the message of the TypeError that reading
    [description] of [null] throws, when the body is the JSON [null]; and,
    when the body is JSON other than [null], its [description] if that is
    a non-empty string, and "HTTP error! status: " followed by the status
    code if its [description] is absent or falsy. *)
Theorem chat_failure_message (r : response) (s : State) (Hnok : ok r = false) :
  let s' := fst (handleSendMessage_settled (Resolved r) s) in
  let reported (m : jsstring) :=
    error s' = Some (lit "Chat failed: " ++ m)
    /\ chatMessages s'
       = chatMessages s
         ++ [{| sender := ai; text := str (lit "Sorry, I encountered an error: " ++ m) |}] in
  (forall e,
      json_body r = Unparseable e ->
      reported (message_of (lit "An unknown error occurred.") e))
  /\ (json_body r = Parsed JNull ->
      reported (null_read_message (lit "description")))
  /\ (forall j,
        json_body r = Parsed j ->
        j <> JNull ->
        exists description,
          get j (lit "description") = Normal description
          /\ (forall message,
                description = str message -> message <> [] ->
                reported message)
          /\ (truthy description = false ->
              reported (lit "HTTP error! status: " ++ number_to_string (status r)))).
Proof.
  intros s' reported. subst s' reported. cbv beta. split; [|split].
  - intros e Hbody.
    rewrite (chat_settled_throw (Resolved r) e s).
    + split; reflexivity.
    + simpl. rewrite Hnok. simpl. unfold await_json. rewrite Hbody. reflexivity.
  - intros Hbody.
    rewrite (chat_settled_throw (Resolved r)
               (Error (null_read_message (lit "description"))) s).
    + split; reflexivity.
    + simpl. rewrite Hnok. simpl. unfold await_json. rewrite Hbody. reflexivity.
  - intros j Hbody Hjson.
    destruct (get_not_null j (lit "description") Hjson) as [description Hd].
    exists description. split; [exact Hd|]. split.
    + intros message -> Hne.
      rewrite (chat_settled_throw (Resolved r) (Error message) s).
      * split; reflexivity.
      * simpl. rewrite Hnok. simpl. unfold await_json. rewrite Hbody. simpl.
        rewrite Hd. simpl. unfold or_else. simpl.
        destruct message; [contradiction | reflexivity].
    + intros Hfalsy.
      rewrite (chat_settled_throw (Resolved r)
                 (Error (lit "HTTP error! status: " ++ number_to_string (status r))) s).
      * split; reflexivity.
      * simpl. rewrite Hnok. simpl. unfold await_json. rewrite Hbody. simpl.
        rewrite Hd. simpl. unfold or_else. rewrite Hfalsy. reflexivity.
Qed.

Lemma chat_failure_message_witness :
  error (fst (handleSendMessage_settled (Resolved no_detail) asked))
    = Some (lit "Chat failed: HTTP error! status: 503")
  /\ error (fst (handleSendMessage_settled (Resolved server_error) asked))
     = Some (lit "Chat failed: Generation failed")
  /\ error (fst (handleSendMessage_settled (Resolved refused_null) asked))
     = Some (lit "Chat failed: " ++ null_read_message (lit "description")).
Proof.
  destruct (chat_failure_message no_detail asked eq_refl) as [_ [_ Hstatus]].
  destruct (chat_failure_message server_error asked eq_refl) as [_ [_ Hdescription]].
  destruct (chat_failure_message refused_null asked eq_refl) as [_ [Hnull _]].
  split; [|split].
  - destruct (Hstatus (JObj []) eq_refl ltac:(discriminate))
      as [description [Hd [_ Hfalsy]]].
    apply Hfalsy. simpl in Hd. injection Hd as <-. reflexivity.
  - destruct (Hdescription
                (JObj [(lit "description", JStr (lit "Generation failed"))])
                eq_refl ltac:(discriminate))
      as [description [Hd [Hstring _]]].
    apply (Hstring (lit "Generation failed")); [|discriminate].
    simpl in Hd. injection Hd as <-. reflexivity.
  - apply Hnull. reflexivity.
Defined.

(** *** The fetch test component *)

(** X18. The component shows the [message] of the response body whenever the
    body is JSON from which it can be read, whatever the status of the
    response; and it shows "Error fetching data" when the request is
    rejected, the body is not JSON, or the body is [null]. *)
Theorem fetch_test_message (r : response) :
  (forall j message,
      json_body r = Parsed j ->
      get j (lit "message") = Normal message ->
      FetchTest.settled (Resolved r) = message)
  /\ (forall r', json_body r' = json_body r ->
                 FetchTest.settled (Resolved r') = FetchTest.settled (Resolved r))
  /\ ((forall j, json_body r = Parsed j -> j = JNull) ->
      FetchTest.settled (Resolved r) = str (lit "Error fetching data"))
  /\ (forall e, FetchTest.settled (Rejected e) = str (lit "Error fetching data")).
Proof.
  unfold FetchTest.settled, FetchTest.chain, await_json.
  split; [|split; [|split]].
  - intros j message Hbody Hget. rewrite Hbody. simpl. rewrite Hget. reflexivity.
  - intros r' Hsame. rewrite Hsame. reflexivity.
  - intros Hnull. destruct (json_body r) as [e | j]; [reflexivity|].
    rewrite (Hnull j eq_refl). reflexivity.
  - reflexivity.
Qed.

Lemma fetch_test_message_witness :
  FetchTest.settled (Resolved greeting) = str (lit "Not here").
Proof.
  apply (proj1 (fetch_test_message greeting)
           (JObj [(lit "message", JStr (lit "Not here"))]) (str (lit "Not here")));
    reflexivity.
Defined.

(** *** An OK response without the expected body *)

Lemma ok_without_answer_witness :
  exists err,
    chat_try (Resolved blank_ok) = Throw err
    /\ chatMessages (fst (handleSendMessage_settled (Resolved blank_ok) initial))
       = chatMessages initial
         ++ [{| sender := ai;
                text := str (lit "Sorry, I encountered an error: "
                             ++ message_of (lit "An unknown error occurred.") err) |}].
Proof.
  apply (ok_without_answer blank_ok initial).
  - reflexivity.
  - intros j H. simpl in H. discriminate H.
Defined.

(** X4. An upload whose response is OK but whose body is not JSON, or is
    [null], is a failed upload: the thrown error's message is reported,
    and the document identifier, the page, the page count and the
    transcript stay as they are; the upload flag is cleared. *)
Theorem ok_upload_without_id (r : response) (s : State)
    (Hok : ok r = true)
    (Hbody : forall j, json_body r = Parsed j -> j = JNull) :
  let s' := fst (handleUpload_settled (Resolved r) s) in
  exists err,
    error s' = Some (message_of (lit "An unknown error occurred during upload.") err)
    /\ snd (handleUpload_settled (Resolved r) s)
       = [ConsoleError (lit "Upload error:") err;
          Alert (lit "Upload failed: "
                 ++ message_of (lit "An unknown error occurred during upload.") err)]
    /\ pdfId s' = pdfId s
    /\ currentPage s' = currentPage s
    /\ numPages s' = numPages s
    /\ chatMessages s' = chatMessages s
    /\ uploading s' = false.
Proof.
  destruct (ok_without_pdf_id r Hok Hbody) as [err Herr].
  intros s'. subst s'. exists err.
  rewrite (upload_settled_throw (Resolved r) err s Herr).
  repeat split.
Qed.

Lemma ok_upload_without_id_witness :
  exists err,
    error (fst (handleUpload_settled (Resolved blank_ok) loaded))
      = Some (message_of (lit "An unknown error occurred during upload.") err)
    /\ pdfId (fst (handleUpload_settled (Resolved blank_ok) loaded)) = pdfId loaded.
Proof.
  destruct (ok_upload_without_id blank_ok loaded) as [err [Herr [_ [Hid _]]]].
  - reflexivity.
  - intros j H. simpl in H. discriminate H.
  - exists err. split; [exact Herr | exact Hid].
Defined.

(** *** The question box while a turn is pending *)

Lemma handle_chatInput (e : event) (s : State) :
  (chatInput (fst (handle e s)), isSending (fst (handle e s)))
  = match e with
    | ChatInputChange v => (v, isSending s)
    | Submit =>
        if negb (truthy (str (trim (chatInput s)))) || negb (truthy (pdfId s))
           || isSending s
        then (chatInput s, isSending s) else ([], true)
    | ChatSettled _ => (chatInput s, false)
    | _ => (chatInput s, isSending s)
    end.
Proof.
  destruct e; cbn [handle]; try reflexivity.
  - destruct file as [f|]; [|reflexivity].
    unfold handleFileChange.
    destruct (jseq (type f) (lit "application/pdf")); reflexivity.
  - unfold handleUpload_settled.
    destruct (upload_try f) as [pdf_id | err]; [destruct (to_string pdf_id)|];
      reflexivity.
  - unfold handleSendMessage.
    destruct (negb (truthy (str (trim (chatInput s)))) || negb (truthy (pdfId s))
              || isSending s); reflexivity.
  - unfold handleSendMessage_settled.
    destruct (chat_try f); reflexivity.
Qed.

(** X17. When every event is one the rendered page offers (the question box
    is disabled while [isSending] is set), the question box is empty for
    as long as a turn is pending. *)
Theorem question_box_empty_while_sending (w : world)
    (Hreach : reachable_offered w) (Hsending : isSending (page w) = true) :
  chatInput (page w) = [] /\ inputValue (render (page w)) = [].
Proof.
  assert (Hinv : chatInput (page w) = []); [|split; exact Hinv].
  revert Hsending. pattern w. apply offered_ind; [discriminate | | exact Hreach].
  intros w0 e w1 H0 Hoff Hstep.
  destruct (step_uploads w0 w1 e Hstep) as [Hpage _].
  pose proof (handle_chatInput e (page w0)) as Hc.
  pose proof (f_equal fst Hc) as Hinput. pose proof (f_equal snd Hc) as Hflag.
  cbn [fst snd] in Hinput, Hflag. rewrite Hpage, Hinput, Hflag. clear Hc Hinput Hflag.
  destruct e; cbn [fst snd]; try exact H0.
  - intros Hs.
    unfold offered, render in Hoff. cbn [inputDisabled] in Hoff.
    rewrite Hs, orb_true_r in Hoff. discriminate.
  - destruct (negb (truthy (str (trim (chatInput (page w0)))))
              || negb (truthy (pdfId (page w0))) || isSending (page w0));
      cbn [fst snd]; [exact H0 | reflexivity].
  - discriminate.
Qed.

Lemma question_box_empty_while_sending_witness :
  chatInput (page pending_offered) = []
  /\ inputValue (render (page pending_offered)) = [].
Proof.
  apply (question_box_empty_while_sending pending_offered).
  - exists asking_offered. vm_compute. reflexivity.
  - reflexivity.
Defined.

End PageMore.
